(** * mirugai.settings: the validated configuration record

    A shallow embedding of [src/mirugai/settings.py]: the two path helpers,
    the three field validators of [Settings], and the way the
    [pydantic_settings.BaseSettings] base class assembles a [Settings] value
    from the defaults, the dotenv file and the process environment. *)

From Stdlib Require Import List Arith NArith String Ascii Bool Lia DecimalString.
Import ListNotations.

Local Open Scope N_scope.
Local Open Scope list_scope.

(** ** Python [str]: a sequence of Unicode code points *)

Module PyStr.

Definition str := list N.

(** A literal of the source, written as a Rocq string of ASCII characters. *)
Definition lit (s : string) : str := map N_of_ascii (list_ascii_of_string s).

Fixpoint eqb (a b : str) : bool :=
  match a, b with
  | [], [] => true
  | x :: a', y :: b' => (x =? y) && eqb a' b'
  | _, _ => false
  end.

(** [x in xs] on a list of strings. *)
Definition mem (x : str) (xs : list str) : bool := existsb (eqb x) xs.

(** The code points [str.strip()] removes when called without argument
    (CPython's [_PyUnicode_IsWhitespace]). *)
Definition isspace (c : N) : bool :=
  ((9 <=? c) && (c <=? 13)) || ((28 <=? c) && (c <=? 32))
  || (c =? 133) || (c =? 160) || (c =? 5760)
  || ((8192 <=? c) && (c <=? 8202))
  || (c =? 8232) || (c =? 8233) || (c =? 8239) || (c =? 8287) || (c =? 12288).

Fixpoint lstrip (s : str) : str :=
  match s with
  | [] => []
  | c :: r => if isspace c then lstrip r else s
  end.

Definition rstrip (s : str) : str := rev (lstrip (rev s)).

Definition strip (s : str) : str := rstrip (lstrip s).

(** The case mappings of the code points outside ASCII come from the Unicode
    database of the interpreter; inside ASCII they are spelled out below.
    ([str.lower] picks between the two small sigmas by context; the table
    gives one of them.) *)
Record UnicodeData := {
  to_upper_full : N -> list N;
  to_lower_full : N -> list N
}.

Definition upper_cp (u : UnicodeData) (c : N) : list N :=
  if (97 <=? c) && (c <=? 122) then [c - 32]
  else if c <? 128 then [c]
  else to_upper_full u c.

Definition lower_cp (u : UnicodeData) (c : N) : list N :=
  if (65 <=? c) && (c <=? 90) then [c + 32]
  else if c <? 128 then [c]
  else to_lower_full u c.

Definition upper (u : UnicodeData) (s : str) : str := flat_map (upper_cp u) s.
Definition lower (u : UnicodeData) (s : str) : str := flat_map (lower_cp u) s.

(** A database with no cased letter outside ASCII, to run the model on
    ASCII input. *)
Definition caseless : UnicodeData :=
  {| to_upper_full := fun c => [c]; to_lower_full := fun c => [c] |}.

(** [s.split(sep)] for a one-character separator. *)
Fixpoint split (sep : N) (s : str) : list str :=
  match s with
  | [] => [[]]
  | c :: r =>
      if c =? sep then [] :: split sep r
      else match split sep r with
           | h :: t => (c :: h) :: t
           | [] => [[c]]
           end
  end.

(** [sep.join(xs)]. *)
Fixpoint join (sep : str) (xs : list str) : str :=
  match xs with
  | [] => []
  | [x] => x
  | x :: r => x ++ sep ++ join sep r
  end.

(** [str(n)] for a number: its decimal digits. *)
Definition dec (n : N) : str := lit (NilZero.string_of_uint (N.to_uint n)).

(** [repr(s)] for a string with no quote, backslash or non-printable
    character, which is every string this module passes to an exception. *)
Definition repr (s : str) : str := lit "'" ++ s ++ lit "'".

End PyStr.

(** ** [pathlib.Path] on a POSIX system *)

Module Pathlib.
Import PyStr.

(** A parsed path: the root (empty, one slash or two) and the components. *)
Record Path := mkPath { root : str; parts : list str }.

Definition sep : N := 47.

(** [posixpath.splitroot]: exactly two leading slashes form a root of their
    own, any other number of them is one slash. *)
Definition splitroot (p : str) : str * str :=
  match p with
  | c0 :: p1 =>
      if c0 =? sep then
        match p1 with
        | c1 :: p2 =>
            if c1 =? sep then
              match p2 with
              | c2 :: _ => if c2 =? sep then ([sep], p1) else ([sep; sep], p2)
              | [] => ([sep; sep], p2)
              end
            else ([sep], p1)
        | [] => ([sep], p1)
        end
      else ([], p)
  | [] => ([], p)
  end.

Definition keep_part (x : str) : bool := negb (eqb x []) && negb (eqb x (lit ".")).

(** [Path(s)]: empty components and single dots are dropped. *)
Definition of_str (s : str) : Path :=
  let (rt, rel) := splitroot s in
  mkPath rt (filter keep_part (split sep rel)).

(** [str(p)]. *)
Definition fspath (p : Path) : str :=
  match root p ++ join [sep] (parts p) with
  | [] => lit "."
  | s => s
  end.

(** [p.parent]: a path without components is its own parent. *)
Definition parent (p : Path) : Path :=
  match parts p with
  | [] => p
  | _ :: _ => mkPath (root p) (removelast (parts p))
  end.

(** [p / key]: a rooted right operand replaces the left one. *)
Definition truediv (p : Path) (key : str) : Path :=
  let q := of_str key in
  match root q with
  | [] => mkPath (root p) (parts p ++ parts q)
  | _ :: _ => q
  end.

Definition is_absolute (p : Path) : bool := negb (eqb (root p) []).

(** What [Path.resolve()] gives in a process whose working directory is the
    root directory, on a machine without symbolic links. *)
Definition absolute (p : Path) : Path :=
  mkPath (match root p with [] => [sep] | _ :: _ => root p end) (parts p).

Definition absolute_is_absolute (p : Path) : is_absolute (absolute p) = true :=
  match root p as r
        return negb (eqb (match r with [] => [sep] | _ :: _ => r end) []) = true
  with
  | [] => eq_refl
  | _ :: _ => eq_refl
  end.

(** What [of_str] produces: one of the three roots, and components that are
    neither empty nor a single dot and hold no slash. *)
Definition sep_free (x : str) : bool := forallb (fun c => negb (c =? sep)) x.

Definition well_formed (p : Path) : bool :=
  (eqb (root p) [] || eqb (root p) [sep] || eqb (root p) [sep; sep])
  && forallb (fun x => sep_free x && keep_part x) (parts p).

End Pathlib.

(** ** What the module sees of the process and the machine *)

Module Runtime.
Import PyStr Pathlib.

Inductive FileKind := RegularFile | Directory | Special.

(** What [os.stat] does with a path: it finds a file of some kind, fails
    with an [OSError], or cannot encode the path at all (a [ValueError]). *)
Inductive StatResult :=
| Found (k : FileKind)
| OSFails (errno : N) (strerror : str)
| Unencodable.

Record World := {
  (** [__file__] of [mirugai/settings.py] *)
  module_file : str;
  (** [os.environ], in iteration order *)
  environ : list (str * str);
  (** [os.stat], symbolic links followed *)
  stat : Path -> StatResult;
  (** [Path.resolve()]: symbolic links followed, the result absolute *)
  realpath : Path -> Path;
  realpath_absolute : forall p, is_absolute (realpath p) = true;
  (** the bindings [dotenv_values] reads from the file at a path (UTF-8)
      in a process with the given environment, which the references
      [${NAME}] of the file are expanded from; a key written without a
      value is bound to [None] *)
  dotenv_values : Path -> list (str * str) -> list (str * option str)
}.

Definition ENOENT : N := 2.
Definition EBADF : N := 9.
Definition EACCES : N := 13.
Definition ENOTDIR : N := 20.
Definition ENAMETOOLONG : N := 36.
Definition ELOOP : N := 40.

(** [pathlib._ignore_error]: the failures of [os.stat] that mean that
    nothing is there. *)
Definition ignore_error (errno : N) : bool :=
  (errno =? ENOENT) || (errno =? ENOTDIR) || (errno =? EBADF) || (errno =? ELOOP).

(** The state of the [logging] module that decides whether the logger of
    this module creates a record: whether the root logger has handlers, its
    level, the levels set on the logger of the module and on its named
    ancestors (nearest first, 0 when unset), the level [logging.disable] was
    given, the flag [disabled] of the logger; and the records created so
    far, oldest first, each with its level and message. *)
Record Logging := mkLogging {
  root_handlers : bool;
  root_level : N;
  logger_levels : list N;
  manager_disable : N;
  logger_disabled : bool;
  records : list (N * str)
}.

Definition M (A : Type) : Type := Logging -> A * Logging.

Definition ret {A} (a : A) : M A := fun l => (a, l).

Definition bind {A B} (m : M A) (k : A -> M B) : M B :=
  fun l => let (a, l') := m l in k a l'.

Definition INFO : N := 20.
Definition WARNING : N := 30.

(** The [logging] module of an interpreter that has just started. *)
Definition fresh_logging : Logging :=
  mkLogging false WARNING [] 0 false [].

(** [logging.basicConfig(level=...)]: nothing happens when the root logger
    has handlers already. *)
Definition basicConfig (level : N) : M unit :=
  fun l =>
    if root_handlers l then (tt, l)
    else (tt, mkLogging true level (logger_levels l) (manager_disable l)
                        (logger_disabled l) (records l)).

(** [Logger.getEffectiveLevel]: the first level set on the way up to the
    root logger. *)
Definition getEffectiveLevel (l : Logging) : N :=
  match find (fun n => negb (n =? 0)) (logger_levels l ++ [root_level l]) with
  | Some n => n
  | None => 0
  end.

Definition isEnabledFor (l : Logging) (level : N) : bool :=
  if logger_disabled l then false
  else if level <=? manager_disable l then false
  else getEffectiveLevel l <=? level.

Definition logger_warning (msg : str) : M unit :=
  fun l =>
    if isEnabledFor l WARNING
    then (tt, mkLogging (root_handlers l) (root_level l) (logger_levels l)
                        (manager_disable l) (logger_disabled l)
                        (records l ++ [(WARNING, msg)]))
    else (tt, l).

End Runtime.

Notation "x <- m ;; k" := (Runtime.bind m (fun x => k))
  (at level 61, m at next level, right associativity).
Notation "m ;;; k" := (Runtime.bind m (fun _ => k))
  (at level 61, right associativity).

(** ** The module [mirugai.settings] *)

Module Mirugai.
Import PyStr Pathlib Runtime.

Inductive Exception :=
| ValueError (args : list str)
| OSError (errno : N) (strerror : str) (filename : str).

(** [str(e)]: for a [ValueError] the argument itself when there is one, the
    tuple of the arguments when there are several; for an [OSError] the
    error number, its text and the file name. *)
Definition exc_str (e : Exception) : str :=
  match e with
  | ValueError [] => []
  | ValueError [a] => a
  | ValueError args => lit "(" ++ join (lit ", ") (map repr args) ++ lit ")"
  | OSError errno strerror filename =>
      lit "[Errno " ++ dec errno ++ lit "] " ++ strerror ++ lit ": " ++ repr filename
  end.

Inductive result (A : Type) : Type :=
| Ok (a : A)
| Raise (e : Exception).
Arguments Ok {A} a.
Arguments Raise {A} e.

(** [Path.exists()]: a failure of [os.stat] that does not mean that nothing
    is there is raised again. *)
Definition path_exists (w : World) (p : Path) : result bool :=
  match stat w p with
  | Found _ => Ok true
  | OSFails errno strerror =>
      if ignore_error errno then Ok false
      else Raise (OSError errno strerror (fspath p))
  | Unencodable => Ok false
  end.

(** [Path.is_file()] *)
Definition is_file (w : World) (p : Path) : result bool :=
  match stat w p with
  | Found RegularFile => Ok true
  | Found _ => Ok false
  | OSFails errno strerror =>
      if ignore_error errno then Ok false
      else Raise (OSError errno strerror (fspath p))
  | Unencodable => Ok false
  end.

Definition get_default_root_dir (w : World) : Path :=
  parent (parent (realpath w (of_str (module_file w)))).

Definition get_default_env_file (w : World) : M (result Path) :=
  let env_file := truediv (get_default_root_dir w) (lit ".env") in
  match path_exists w env_file with
  | Raise e => ret (Raise e)
  | Ok false =>
      logger_warning (fspath env_file ++ lit " does not exist") ;;;
      ret (Ok env_file)
  | Ok true => ret (Ok env_file)
  end.

Record Settings := mkSettings {
  app_name : str;
  app_tagline : str;
  root_dir : Path;
  app_logo_image : Path;
  log_level : str
}.

Definition LEVELS : list str :=
  [lit "DEBUG"; lit "INFO"; lit "WARNING"; lit "ERROR"; lit "CRITICAL"].

(** [validate_str_not_empty]: the value is a [str] here, so the
    [isinstance] test holds. *)
Definition validate_str_not_empty (v : str) : result str :=
  match strip v with
  | [] => Raise (ValueError [lit "app_name must not be empty"])
  | _ :: _ => Ok v
  end.

Definition validate_log_level (u : UnicodeData) (v : str) : result str :=
  if negb (mem (upper u v) LEVELS)
  then Raise (ValueError [lit "log_level must be one of DEBUG, INFO, WARNING, ERROR";
                          lit "CRITICAL"])
  else Ok v.

Definition validate_path_exists (w : World) (v : Path) : result Path :=
  match path_exists w v with
  | Raise e => Raise e
  | Ok false => Raise (ValueError [fspath v ++ lit " does not exist"])
  | Ok true => Ok v
  end.

(** The class body runs once, at import: [Config.env_file] is fixed then. *)
Record Module := { Config_env_file : Path }.

(** Importing the module: the logging set-up, then the class body. An
    exception of [get_default_env_file] ends the import. *)
Definition import_module (w : World) : M (result Module) :=
  basicConfig INFO ;;;
  r <- get_default_env_file w ;;
  ret (match r with
       | Ok env_file => Ok {| Config_env_file := env_file |}
       | Raise e => Raise e
       end).

(** *** What the base class [BaseSettings] does with the class

    [Settings()] collects the values of the fields from the sources, the
    process environment over the dotenv file, and validates the result. The
    configuration inherited from [BaseSettings] matches names without regard
    to case, forbids keys that are no field and validates the defaults too
    ([validate_default] is on), so every field goes through its validator
    whether a source supplied it or not. A validator that raises a
    [ValueError] is reported in the validation error; any other exception
    leaves [Settings()] as it is. *)

Definition dict := list (str * str).

Fixpoint dict_get {V} (k : str) (d : list (str * V)) : option V :=
  match d with
  | [] => None
  | (k', v) :: r => if eqb k k' then Some v else dict_get k r
  end.

Fixpoint dict_set {V} (k : str) (v : V) (d : list (str * V)) : list (str * V) :=
  match d with
  | [] => [(k, v)]
  | (k', v') :: r => if eqb k k' then (k, v) :: r else (k', v') :: dict_set k v r
  end.

(** [d1.update(d2)] *)
Definition dict_update {V} (d1 d2 : list (str * V)) : list (str * V) :=
  fold_left (fun d kv => dict_set (fst kv) (snd kv) d) d2 d1.

(** The value the last binding of a key gives it in a sequence of pairs. *)
Fixpoint dict_get_last {V} (k : str) (d : list (str * V)) : option V :=
  match d with
  | [] => None
  | (k', v) :: r =>
      match dict_get_last k r with
      | Some x => Some x
      | None => if eqb k k' then Some v else None
      end
  end.

Definition field_names : list str :=
  [lit "app_name"; lit "app_tagline"; lit "root_dir"; lit "app_logo_image";
   lit "log_level"].

(** [{k.lower(): v for k, v in env_vars.items()}] *)
Definition parse_env_vars {V} (u : UnicodeData) (env_vars : list (str * V))
  : list (str * V) :=
  dict_update [] (map (fun kv => (lower u (fst kv), snd kv)) env_vars).

(** The names that are bound to a value: a name bound to [None] counts as
    not there. *)
Definition present (d : list (str * option str)) : dict :=
  flat_map (fun kv => match snd kv with
                      | Some v => [(fst kv, v)]
                      | None => []
                      end) d.

(** The fields a source has a value for, in the order of the class. *)
Definition field_values (env_vars : dict) : dict :=
  flat_map (fun f => match dict_get f env_vars with
                     | Some v => [(f, v)]
                     | None => []
                     end) field_names.

Definition EnvSettingsSource (u : UnicodeData) (w : World) : dict :=
  field_values (parse_env_vars u (environ w)).

(** The file is read when a regular file is there; its names are
    lower-cased before the ones without a value are set aside, so that a
    name without a value hides an earlier binding of the same name. *)
Definition read_env_file (u : UnicodeData) (w : World) (p : Path) : result dict :=
  match is_file w p with
  | Raise e => Raise e
  | Ok true => Ok (present (parse_env_vars u (dotenv_values w p (environ w))))
  | Ok false => Ok []
  end.

(** The dotenv source also hands on the keys of the file that are no field,
    when they have a non-empty value. [Config.env_file] is absolute, so
    [expanduser] leaves it alone. *)
Definition DotEnvSettingsSource (u : UnicodeData) (m : Module) (w : World)
  : result dict :=
  match read_env_file u w (Config_env_file m) with
  | Raise e => Raise e
  | Ok env_vars =>
      Ok (field_values env_vars
          ++ filter (fun kv => negb (eqb (snd kv) [])
                               && negb (mem (fst kv) field_names))
                    env_vars)
  end.

Definition settings_build_values (u : UnicodeData) (m : Module) (w : World)
  : result dict :=
  match DotEnvSettingsSource u m w with
  | Raise e => Raise e
  | Ok file => Ok (dict_update file (EnvSettingsSource u w))
  end.

(** What the process environment and the dotenv file say about a name. *)
Definition env_value (u : UnicodeData) (w : World) (name : str) : option str :=
  dict_get name (parse_env_vars u (environ w)).

Definition file_value (u : UnicodeData) (m : Module) (w : World) (name : str)
  : option str :=
  match read_env_file u w (Config_env_file m) with
  | Ok env_vars => dict_get name env_vars
  | Raise _ => None
  end.

Inductive ErrorType :=
| value_error (e : Exception)
| extra_forbidden.

Record ErrorDetails := mkError { loc : str; err : ErrorType }.

(** How [Settings()] ends: with an instance, with a validation error, or
    with an exception that is none. *)
Inductive outcome :=
| Built (s : Settings)
| ValidationError (errors : list ErrorDetails)
| Propagated (e : Exception).

(** An exception of a validator that is not turned into a validation
    error. *)
Definition uncaught {A} (r : result A) : option Exception :=
  match r with
  | Raise (OSError errno strerror filename) => Some (OSError errno strerror filename)
  | _ => None
  end.

Definition field_errors {A} (name : str) (r : result A) : list ErrorDetails :=
  match r with
  | Raise (ValueError args) => [mkError name (value_error (ValueError args))]
  | _ => []
  end.

Definition extra_errors (data : dict) : list ErrorDetails :=
  map (fun kv => mkError (fst kv) extra_forbidden)
      (filter (fun kv => negb (mem (fst kv) field_names)) data).

(** The value each field is validated on: the one collected from the
    sources, else the default of the class. *)
Definition input_app_name (data : dict) : str :=
  match dict_get (lit "app_name") data with
  | Some v => v
  | None => lit "mirugai"
  end.

Definition input_app_tagline (data : dict) : str :=
  match dict_get (lit "app_tagline") data with
  | Some v => v
  | None => lit "Let's make some clams"
  end.

Definition input_root_dir (w : World) (data : dict) : Path :=
  match dict_get (lit "root_dir") data with
  | Some v => of_str v
  | None => get_default_root_dir w
  end.

Definition input_app_logo_image (w : World) (data : dict) : Path :=
  match dict_get (lit "app_logo_image") data with
  | Some v => of_str v
  | None => truediv (get_default_root_dir w) (lit "logo.jpg")
  end.

Definition input_log_level (data : dict) : str :=
  match dict_get (lit "log_level") data with
  | Some v => v
  | None => lit "INFO"
  end.

(** The fields are validated in the order of the class. The first exception
    that is no [ValueError] ends the validation; otherwise the errors of all
    the fields are reported together, and an instance is built only when
    there is none. *)
Definition model_validate (u : UnicodeData) (w : World) (data : dict) : outcome :=
  let r_app_name := validate_str_not_empty (input_app_name data) in
  let r_root_dir := validate_path_exists w (input_root_dir w data) in
  let r_log_level := validate_log_level u (input_log_level data) in
  match uncaught r_app_name, uncaught r_root_dir, uncaught r_log_level with
  | Some e, _, _ => Propagated e
  | None, Some e, _ => Propagated e
  | None, None, Some e => Propagated e
  | None, None, None =>
      match r_app_name, r_root_dir, r_log_level, extra_errors data with
      | Ok a, Ok r, Ok g, [] =>
          Built (mkSettings a (input_app_tagline data) r
                            (input_app_logo_image w data) g)
      | _, _, _, extra =>
          ValidationError (field_errors (lit "app_name") r_app_name
                           ++ field_errors (lit "root_dir") r_root_dir
                           ++ field_errors (lit "log_level") r_log_level
                           ++ extra)
      end
  end.

(** [Settings()] *)
Definition Settings_new (u : UnicodeData) (m : Module) (w : World) : M outcome :=
  ret (match settings_build_values u m w with
       | Raise e => Propagated e
       | Ok data => model_validate u w data
       end).

(** *** Concrete worlds to run the model in *)

Definition settings_py : str := lit "/srv/app/mirugai/settings.py".

Definition app_module : Module :=
  {| Config_env_file := of_str (lit "/srv/app/.env") |}.

(** The same process and machine with another file system. *)
Definition with_stat (w : World) (st : Path -> StatResult) : World :=
  {| module_file := module_file w;
     environ := environ w;
     stat := st;
     realpath := realpath w;
     realpath_absolute := realpath_absolute w;
     dotenv_values := dotenv_values w |}.

(** The same machine with another process environment. *)
Definition with_environ (w : World) (env : list (str * str)) : World :=
  {| module_file := module_file w;
     environ := env;
     stat := stat w;
     realpath := realpath w;
     realpath_absolute := realpath_absolute w;
     dotenv_values := dotenv_values w |}.

Definition no_such_file : StatResult :=
  OSFails ENOENT (lit "No such file or directory").

Definition name_too_long : StatResult :=
  OSFails ENAMETOOLONG (lit "File name too long").

(** A component of more than 255 characters is more than a file system
    takes. *)
Definition long_name (p : Path) : bool :=
  existsb (fun x => (255 <? List.length x)%nat) (parts p).

Definition long_path : str := lit "/" ++ repeat 97 300.

(** Every path is a directory, except the ones with too long a name; there
    is no dotenv file. *)
Definition world_with (env : list (str * str)) : World :=
  {| module_file := settings_py;
     environ := env;
     stat := fun p => if long_name p then name_too_long
                      else if eqb (fspath p) (lit "/srv/app/.env") then no_such_file
                      else Found Directory;
     realpath := absolute;
     realpath_absolute := absolute_is_absolute;
     dotenv_values := fun _ _ => [] |}.

(** The same, with a dotenv file in the project directory that refers to no
    variable. *)
Definition world_dotenv (bindings : list (str * option str))
           (env : list (str * str)) : World :=
  {| module_file := settings_py;
     environ := env;
     stat := fun p => if long_name p then name_too_long
                      else if eqb (fspath p) (lit "/srv/app/.env")
                           then Found RegularFile
                           else Found Directory;
     realpath := absolute;
     realpath_absolute := absolute_is_absolute;
     dotenv_values := fun p _ => if eqb (fspath p) (lit "/srv/app/.env")
                                 then bindings else [] |}.

(** The same, the dotenv file being the line [APP_NAME=${APP_TAGLINE}]: a
    variable that is not set expands to the empty string. *)
Definition world_interpolating (env : list (str * str)) : World :=
  {| module_file := settings_py;
     environ := env;
     stat := fun p => if long_name p then name_too_long
                      else if eqb (fspath p) (lit "/srv/app/.env")
                           then Found RegularFile
                           else Found Directory;
     realpath := absolute;
     realpath_absolute := absolute_is_absolute;
     dotenv_values := fun p e =>
       if eqb (fspath p) (lit "/srv/app/.env")
       then [(lit "APP_NAME",
              Some match dict_get (lit "APP_TAGLINE") e with
                   | Some v => v
                   | None => []
                   end)]
       else [] |}.

(** The same as [world_with], except that the process may not search the
    directory [/private]: [os.stat] is refused below it, whatever is
    there. *)
Definition permission_denied : StatResult :=
  OSFails EACCES (lit "Permission denied").

Definition world_private (env : list (str * str)) : World :=
  {| module_file := settings_py;
     environ := env;
     stat := fun p => match parts p with
                      | x :: _ :: _ =>
                          if eqb x (lit "private") then permission_denied
                          else stat (world_with env) p
                      | _ => stat (world_with env) p
                      end;
     realpath := absolute;
     realpath_absolute := absolute_is_absolute;
     dotenv_values := fun _ _ => [] |}.

(** Nothing exists but the project directory and what is listed. *)
Definition world_only (files : list (str * FileKind)) (env : list (str * str)) : World :=
  {| module_file := settings_py;
     environ := env;
     stat := fun p =>
       if long_name p then name_too_long
       else if eqb (fspath p) (lit "/srv/app") then Found Directory
       else match find (fun fk => eqb (fspath p) (fst fk)) files with
            | Some fk => Found (snd fk)
            | None => no_such_file
            end;
     realpath := absolute;
     realpath_absolute := absolute_is_absolute;
     dotenv_values := fun _ _ => [] |}.

(** The [logging] module after a host has given the root logger a handler
    and the level [ERROR]. *)
Definition host_logging : Logging := mkLogging true 40 [] 0 false [].

End Mirugai.

(** * Properties *)

Import PyStr Pathlib Runtime Mirugai.

(** ** Strings *)

Section StrFacts.

Lemma eqb_refl (a : str) : eqb a a = true.
Proof.
  induction a as [|x a IH]; simpl; [reflexivity|].
  now rewrite N.eqb_refl, IH.
Qed.

Lemma eqb_eq (a b : str) : eqb a b = true <-> a = b.
Proof.
  split.
  - revert b; induction a as [|x a IH]; intros [|y b] H; simpl in H;
      try discriminate; [reflexivity|].
    apply andb_true_iff in H as [Hx Hr].
    apply N.eqb_eq in Hx. apply IH in Hr. congruence.
  - intros ->. apply eqb_refl.
Qed.

Lemma mem_In (x : str) (xs : list str) : mem x xs = true <-> In x xs.
Proof.
  unfold mem. rewrite existsb_exists. split.
  - intros [y [Hy He]]. apply eqb_eq in He. now subst.
  - intros H. exists x. split; [assumption | apply eqb_refl].
Qed.

Lemma lstrip_nil_iff (s : str) : lstrip s = [] <-> forallb isspace s = true.
Proof.
  induction s as [|c r IH]; simpl; [tauto|].
  destruct (isspace c); simpl; [exact IH|].
  split; discriminate.
Qed.

Lemma lstrip_suffix (s : str) : exists p, s = p ++ lstrip s /\ forallb isspace p = true.
Proof.
  induction s as [|c r [p [Hp Hs]]]; simpl.
  - now exists [].
  - destruct (isspace c) eqn:E.
    + exists (c :: p). simpl. rewrite E, Hs. split; [now f_equal | reflexivity].
    + now exists [].
Qed.

(** [not v.strip()] holds exactly for the strings made of whitespace only. *)
Lemma strip_nil_iff (s : str) : strip s = [] <-> forallb isspace s = true.
Proof.
  unfold strip, rstrip. split.
  - intros H.
    apply (f_equal (@rev N)) in H. rewrite rev_involutive in H. simpl in H.
    rename H into Hl.
    apply lstrip_nil_iff in Hl.
    assert (Hm : forallb isspace (lstrip s) = true).
    { rewrite forallb_forall in *. intros x Hx. apply Hl. now apply in_rev in Hx. }
    destruct (lstrip_suffix s) as [p [Hp Hs]].
    rewrite Hp, forallb_app, Hs, Hm. reflexivity.
  - intros H. apply lstrip_nil_iff in H. rewrite H. reflexivity.
Qed.

End StrFacts.

(** ** Dictionaries and the sources *)

Section DictFacts.

Lemma dict_get_set (k k' v : str) (d : dict) :
  dict_get k (dict_set k' v d) = if eqb k k' then Some v else dict_get k d.
Proof.
  induction d as [|[k0 v0] r IH]; simpl.
  - reflexivity.
  - destruct (eqb k' k0) eqn:E'; simpl.
    + apply eqb_eq in E'. subst k0. now destruct (eqb k k').
    + rewrite IH. destruct (eqb k k0) eqn:E0; [|reflexivity].
      apply eqb_eq in E0. subst k0.
      destruct (eqb k k') eqn:E; [|reflexivity].
      apply eqb_eq in E. subst k'. rewrite eqb_refl in E'. discriminate.
Qed.

Lemma dict_get_update (k : str) (d2 d1 : dict) :
  dict_get k (dict_update d1 d2) =
  match dict_get_last k d2 with
  | Some v => Some v
  | None => dict_get k d1
  end.
Proof.
  unfold dict_update. revert d1.
  induction d2 as [|[k' v'] r IH]; intros d1; simpl; [reflexivity|].
  rewrite IH, dict_get_set.
  destruct (dict_get_last k r); [reflexivity|].
  now destruct (eqb k k').
Qed.

Lemma dict_get_app (k : str) (d1 d2 : dict) :
  dict_get k (d1 ++ d2) =
  match dict_get k d1 with
  | Some v => Some v
  | None => dict_get k d2
  end.
Proof.
  induction d1 as [|[k' v'] r IH]; simpl; [reflexivity|].
  now destruct (eqb k k').
Qed.

Lemma dict_get_last_app (k : str) (d1 d2 : dict) :
  dict_get_last k (d1 ++ d2) =
  match dict_get_last k d2 with
  | Some v => Some v
  | None => dict_get_last k d1
  end.
Proof.
  induction d1 as [|[k' v'] r IH]; simpl.
  - now destruct (dict_get_last k d2).
  - rewrite IH. now destruct (dict_get_last k d2).
Qed.

Lemma dict_get_not_key (k : str) (d : dict) :
  (forall kv, In kv d -> fst kv <> k) -> dict_get k d = None.
Proof.
  induction d as [|[k' v'] r IH]; simpl; intros H; [reflexivity|].
  destruct (eqb k k') eqn:E.
  - apply eqb_eq in E. subst. exfalso. now apply (H (k', v')); [left|].
  - apply IH. intros kv Hkv. apply H. now right.
Qed.

Lemma dict_set_In (kv : str * str) (k v : str) (d : dict) :
  In kv (dict_set k v d) -> kv = (k, v) \/ In kv d.
Proof.
  induction d as [|[k' v'] r IH]; simpl.
  - intros [H|[]]. now left.
  - destruct (eqb k k'); simpl.
    + intros [H|H]; [now left | right; now right].
    + intros [H|H]; [right; now left|].
      destruct (IH H) as [Hk|Hk]; [now left | right; now right].
Qed.

Lemma dict_update_In (kv : str * str) (d2 d1 : dict) :
  In kv (dict_update d1 d2) -> In kv d1 \/ In kv d2.
Proof.
  unfold dict_update. revert d1.
  induction d2 as [|[k' v'] r IH]; intros d1; simpl; [now left|].
  intros H. destruct (IH _ H) as [H1|H1].
  - apply dict_set_In in H1 as [H1|H1]; [right; now left | now left].
  - right. now right.
Qed.

(** The fields a source supplies: first and last binding agree, and only
    names of fields are bound. *)
Lemma field_values_gen_get (k : str) (d : dict) (names : list str) :
  dict_get k (flat_map (fun f => match dict_get f d with
                                 | Some v => [(f, v)]
                                 | None => []
                                 end) names)
  = if mem k names then dict_get k d else None.
Proof.
  induction names as [|f r IH]; [reflexivity|].
  cbn [flat_map]. rewrite dict_get_app, IH. unfold mem. cbn [existsb].
  fold (mem k r). destruct (eqb k f) eqn:E.
  - apply eqb_eq in E. subst f.
    destruct (dict_get k d) eqn:G; simpl.
    + now rewrite eqb_refl.
    + now destruct (mem k r).
  - destruct (dict_get f d); simpl; [rewrite E|]; reflexivity.
Qed.

Lemma field_values_gen_get_last (k : str) (d : dict) (names : list str) :
  dict_get_last k (flat_map (fun f => match dict_get f d with
                                      | Some v => [(f, v)]
                                      | None => []
                                      end) names)
  = if mem k names then dict_get k d else None.
Proof.
  induction names as [|f r IH]; [reflexivity|].
  cbn [flat_map]. rewrite dict_get_last_app, IH. unfold mem. cbn [existsb].
  fold (mem k r). destruct (eqb k f) eqn:E.
  - apply eqb_eq in E. subst f. simpl.
    destruct (mem k r); destruct (dict_get k d) eqn:G; simpl;
      rewrite ?eqb_refl; reflexivity.
  - simpl. destruct (mem k r).
    + destruct (dict_get k d); [reflexivity|].
      destruct (dict_get f d); simpl; [rewrite E|]; reflexivity.
    + destruct (dict_get f d); simpl; [rewrite E|]; reflexivity.
Qed.

Lemma field_values_get (k : str) (d : dict) :
  dict_get k (field_values d) = if mem k field_names then dict_get k d else None.
Proof. apply field_values_gen_get. Qed.

Lemma field_values_get_last (k : str) (d : dict) :
  dict_get_last k (field_values d) = if mem k field_names then dict_get k d else None.
Proof. apply field_values_gen_get_last. Qed.

Lemma field_values_keys (kv : str * str) (d : dict) :
  In kv (field_values d) -> mem (fst kv) field_names = true.
Proof.
  unfold field_values. intros H. apply in_flat_map in H as [f [Hf Hkv]].
  destruct (dict_get f d); [|contradiction].
  destruct Hkv as [<-|[]]. cbn [fst]. now apply mem_In.
Qed.

End DictFacts.

(** ** The validators *)

Lemma validate_str_not_empty_cases (v : str) :
  validate_str_not_empty v = Ok v
  \/ validate_str_not_empty v = Raise (ValueError [lit "app_name must not be empty"]).
Proof.
  unfold validate_str_not_empty. destruct (strip v); [now right | now left].
Qed.

Lemma validate_log_level_cases (u : UnicodeData) (v : str) :
  validate_log_level u v = Ok v
  \/ validate_log_level u v
     = Raise (ValueError [lit "log_level must be one of DEBUG, INFO, WARNING, ERROR";
                          lit "CRITICAL"]).
Proof.
  unfold validate_log_level. destruct (mem (upper u v) LEVELS); [now left | now right].
Qed.

(** The three ways the existence check can end. *)
Lemma validate_path_exists_cases (w : World) (v : Path) :
  (path_exists w v = Ok true /\ validate_path_exists w v = Ok v)
  \/ (path_exists w v = Ok false
      /\ validate_path_exists w v
         = Raise (ValueError [fspath v ++ lit " does not exist"]))
  \/ (exists errno strerror,
        stat w v = OSFails errno strerror /\ ignore_error errno = false
        /\ validate_path_exists w v = Raise (OSError errno strerror (fspath v))).
Proof.
  unfold validate_path_exists, path_exists.
  destruct (stat w v) as [k|errno strerror|].
  - now left.
  - destruct (ignore_error errno) eqn:E.
    + right; left. now split.
    + right; right. now exists errno, strerror.
  - right; left. now split.
Qed.

Lemma validate_str_not_empty_Ok (v a : str) :
  validate_str_not_empty v = Ok a -> a = v /\ strip v <> [].
Proof.
  unfold validate_str_not_empty. destruct (strip v); [discriminate|].
  intros [= <-]. split; [reflexivity | discriminate].
Qed.

Lemma validate_log_level_Ok (u : UnicodeData) (v g : str) :
  validate_log_level u v = Ok g -> g = v /\ mem (upper u v) LEVELS = true.
Proof.
  unfold validate_log_level. destruct (mem (upper u v) LEVELS); [|discriminate].
  intros [= <-]. now split.
Qed.

Lemma validate_path_exists_Ok (w : World) (v r : Path) :
  validate_path_exists w v = Ok r -> r = v /\ exists k, stat w v = Found k.
Proof.
  unfold validate_path_exists, path_exists.
  destruct (stat w v) as [k|errno strerror|]; [| |discriminate].
  - intros [= <-]. split; [reflexivity | now exists k].
  - destruct (ignore_error errno); discriminate.
Qed.

(** ** Construction *)

Section ConstructionFacts.

Variable u : UnicodeData.
Variable m : Module.
Variable w : World.

Lemma build_values_of_file (env_vars : dict) :
  read_env_file u w (Config_env_file m) = Ok env_vars ->
  settings_build_values u m w
  = Ok (dict_update
          (field_values env_vars
           ++ filter (fun kv => negb (eqb (snd kv) [])
                                && negb (mem (fst kv) field_names)) env_vars)
          (EnvSettingsSource u w)).
Proof.
  intros H. unfold settings_build_values, DotEnvSettingsSource. now rewrite H.
Qed.

Lemma build_values_Ok (d : dict) :
  settings_build_values u m w = Ok d ->
  exists env_vars, read_env_file u w (Config_env_file m) = Ok env_vars.
Proof.
  unfold settings_build_values, DotEnvSettingsSource.
  destruct (read_env_file u w (Config_env_file m)) as [ev|e]; [|discriminate].
  intros _. now exists ev.
Qed.

(** Precedence: the process environment, then the dotenv file; a field
    neither names falls back on its default. *)
Lemma build_values_get (d : dict) (f : str) :
  settings_build_values u m w = Ok d ->
  mem f field_names = true ->
  dict_get f d =
  match env_value u w f with
  | Some v => Some v
  | None => file_value u m w f
  end.
Proof.
  intros Hd Hf. destruct (build_values_Ok d Hd) as [ev Hev].
  rewrite (build_values_of_file ev Hev) in Hd. injection Hd as <-.
  unfold EnvSettingsSource, env_value, file_value. rewrite Hev.
  rewrite dict_get_update, field_values_get_last, Hf.
  destruct (dict_get f (parse_env_vars u (environ w))); [reflexivity|].
  rewrite dict_get_app, field_values_get, Hf.
  destruct (dict_get f ev); [reflexivity|].
  apply dict_get_not_key. intros kv Hkv E.
  apply filter_In in Hkv as [_ Hkv]. apply andb_true_iff in Hkv as [_ Hkv].
  change (negb (mem (fst kv) field_names) = true) in Hkv.
  rewrite E, Hf in Hkv. discriminate.
Qed.

Lemma build_values_no_file :
  is_file w (Config_env_file m) = Ok false ->
  settings_build_values u m w = Ok (dict_update [] (EnvSettingsSource u w)).
Proof.
  intros Hf. apply (build_values_of_file []).
  unfold read_env_file. now rewrite Hf.
Qed.

Lemma build_values_no_file_keys (d : dict) (kv : str * str) :
  is_file w (Config_env_file m) = Ok false ->
  settings_build_values u m w = Ok d ->
  In kv d -> mem (fst kv) field_names = true.
Proof.
  intros Hf Hd H. rewrite (build_values_no_file Hf) in Hd. injection Hd as <-.
  apply dict_update_In in H as [H|H]; [contradiction|].
  unfold EnvSettingsSource in H. now apply field_values_keys in H.
Qed.

Lemma build_values_no_file_get (d : dict) (f : str) :
  is_file w (Config_env_file m) = Ok false ->
  settings_build_values u m w = Ok d ->
  mem f field_names = true ->
  dict_get f d = env_value u w f.
Proof.
  intros Hfile Hd Hf. rewrite (build_values_get d f Hd Hf).
  destruct (env_value u w f); [reflexivity|].
  unfold file_value, read_env_file. now rewrite Hfile.
Qed.

Lemma extra_errors_nil (d : dict) :
  (forall kv, In kv d -> mem (fst kv) field_names = true) -> extra_errors d = [].
Proof.
  intros H. unfold extra_errors.
  induction d as [|kv r IH]; [reflexivity|].
  cbn [filter]. rewrite (H kv (or_introl eq_refl)). cbn [negb].
  apply IH. intros kv' Hkv'. apply H. now right.
Qed.

Lemma extra_errors_loc (d : dict) (e : ErrorDetails) :
  In e (extra_errors d) -> err e = extra_forbidden /\ mem (loc e) field_names = false.
Proof.
  unfold extra_errors. intros H. apply in_map_iff in H as [kv [<- Hkv]].
  apply filter_In in Hkv as [_ Hkv]. apply negb_true_iff in Hkv. now split.
Qed.

Ltac split_validators d :=
  unfold model_validate;
  destruct (validate_str_not_empty_cases (input_app_name d)) as [Ha|Ha];
  destruct (validate_log_level_cases u (input_log_level d)) as [Hg|Hg];
  rewrite Ha, Hg;
  destruct (validate_path_exists w (input_root_dir w d)) as [?r|[?args|?n ?st ?f]];
  cbn [uncaught field_errors].

(** The instance is built exactly when the three validators accept their
    input and no key is left over. *)
Lemma model_validate_Built (d : dict) (a g : str) (r : Path) :
  validate_str_not_empty (input_app_name d) = Ok a ->
  validate_path_exists w (input_root_dir w d) = Ok r ->
  validate_log_level u (input_log_level d) = Ok g ->
  extra_errors d = [] ->
  model_validate u w d =
  Built (mkSettings a (input_app_tagline d) r (input_app_logo_image w d) g).
Proof.
  intros Ha Hr Hg He. unfold model_validate. now rewrite Ha, Hr, Hg, He.
Qed.

Lemma model_validate_Built_inv (d : dict) (s : Settings) :
  model_validate u w d = Built s ->
  validate_str_not_empty (input_app_name d) = Ok (app_name s)
  /\ validate_path_exists w (input_root_dir w d) = Ok (root_dir s)
  /\ validate_log_level u (input_log_level d) = Ok (log_level s)
  /\ extra_errors d = []
  /\ app_tagline s = input_app_tagline d
  /\ app_logo_image s = input_app_logo_image w d.
Proof.
  split_validators d; destruct (extra_errors d); try discriminate.
  intros [= <-]. repeat split; reflexivity.
Qed.

(** An exception of the existence check that is no [ValueError] is what
    [Settings()] raises, whatever the other fields hold. *)
Lemma model_validate_Propagated (d : dict) (e : Exception) :
  model_validate u w d = Propagated e <->
  uncaught (validate_path_exists w (input_root_dir w d)) = Some e.
Proof.
  split_validators d; destruct (extra_errors d);
    split; intros H; try discriminate H; congruence.
Qed.

Lemma model_validate_errors (d : dict) (errs : list ErrorDetails) :
  model_validate u w d = ValidationError errs ->
  errs = field_errors (lit "app_name") (validate_str_not_empty (input_app_name d))
         ++ field_errors (lit "root_dir") (validate_path_exists w (input_root_dir w d))
         ++ field_errors (lit "log_level") (validate_log_level u (input_log_level d))
         ++ extra_errors d
  /\ errs <> [].
Proof.
  split_validators d; destruct (extra_errors d);
    intros H; try discriminate H; injection H as <-;
    (split; [reflexivity | discriminate]).
Qed.

(** A validator that raises a [ValueError] is reported under the name of its
    field, unless the existence check raises something else. *)
Lemma model_validate_reports (d : dict) (name : str) (args : list str) :
  uncaught (validate_path_exists w (input_root_dir w d)) = None ->
  (name = lit "app_name"
   /\ validate_str_not_empty (input_app_name d) = Raise (ValueError args))
  \/ (name = lit "root_dir"
      /\ validate_path_exists w (input_root_dir w d) = Raise (ValueError args))
  \/ (name = lit "log_level"
      /\ validate_log_level u (input_log_level d) = Raise (ValueError args)) ->
  exists errs, model_validate u w d = ValidationError errs
               /\ In (mkError name (value_error (ValueError args))) errs.
Proof.
  intros Hu H.
  destruct (model_validate u w d) as [s|errs|e] eqn:E.
  - apply model_validate_Built_inv in E as (Ha & Hr & Hg & _).
    destruct H as [[_ H]|[[_ H]|[_ H]]]; congruence.
  - exists errs. split; [reflexivity|].
    apply model_validate_errors in E as [-> _].
    destruct H as [[-> H]|[[-> H]|[-> H]]]; rewrite H; cbn [field_errors].
    + now left.
    + apply in_or_app. right. now left.
    + apply in_or_app. right. apply in_or_app. right. now left.
  - apply model_validate_Propagated in E. congruence.
Qed.

(** Where an error can be located: at one of the three validated fields,
    with what its validator raised, or at a key that is no field. *)
Lemma model_validate_error_origin (d : dict) (errs : list ErrorDetails)
      (e : ErrorDetails) :
  model_validate u w d = ValidationError errs -> In e errs ->
  (exists x, e = mkError (lit "app_name") (value_error x)
             /\ validate_str_not_empty (input_app_name d) = Raise x)
  \/ (exists x, e = mkError (lit "root_dir") (value_error x)
                /\ validate_path_exists w (input_root_dir w d) = Raise x)
  \/ (exists x, e = mkError (lit "log_level") (value_error x)
                /\ validate_log_level u (input_log_level d) = Raise x)
  \/ (err e = extra_forbidden /\ mem (loc e) field_names = false).
Proof.
  intros E H. apply model_validate_errors in E as [-> _].
  apply in_app_or in H as [H|H]; [|apply in_app_or in H as [H|H];
                                    [|apply in_app_or in H as [H|H]]].
  - left. destruct (validate_str_not_empty (input_app_name d)) as [|[x|? ? ?]];
      try contradiction.
    destruct H as [<-|[]]. now exists (ValueError x).
  - right; left.
    destruct (validate_path_exists w (input_root_dir w d)) as [|[x|? ? ?]];
      try contradiction.
    destruct H as [<-|[]]. now exists (ValueError x).
  - right; right; left.
    destruct (validate_log_level u (input_log_level d)) as [|[x|? ? ?]];
      try contradiction.
    destruct H as [<-|[]]. now exists (ValueError x).
  - right; right; right. now apply (extra_errors_loc d).
Qed.

End ConstructionFacts.

(** Construction looks at the file system in two places only: at the dotenv
    file and at the value of [root_dir]. *)
Lemma Settings_new_frame (u : UnicodeData) (m : Module) (w w' : World) (l : Logging) :
  module_file w = module_file w' ->
  environ w = environ w' ->
  realpath w (of_str (module_file w)) = realpath w' (of_str (module_file w')) ->
  stat w (Config_env_file m) = stat w' (Config_env_file m) ->
  dotenv_values w (Config_env_file m) (environ w)
  = dotenv_values w' (Config_env_file m) (environ w') ->
  (forall d, settings_build_values u m w = Ok d ->
             stat w (input_root_dir w d) = stat w' (input_root_dir w d)) ->
  Settings_new u m w l = Settings_new u m w' l.
Proof.
  intros Hfile Henv Hreal Hstat Hdot Hroot.
  assert (Hd : get_default_root_dir w = get_default_root_dir w').
  { unfold get_default_root_dir. now rewrite Hreal. }
  assert (Hb : settings_build_values u m w = settings_build_values u m w').
  { unfold settings_build_values, DotEnvSettingsSource, EnvSettingsSource,
      read_env_file, is_file.
    now rewrite Hstat, Hdot, Henv. }
  unfold Settings_new. rewrite <- Hb.
  destruct (settings_build_values u m w) as [d|e] eqn:E; [|reflexivity].
  assert (Hi : input_root_dir w d = input_root_dir w' d).
  { unfold input_root_dir. now rewrite Hd. }
  assert (Hl : input_app_logo_image w d = input_app_logo_image w' d).
  { unfold input_app_logo_image. now rewrite Hd. }
  unfold model_validate, validate_path_exists, path_exists.
  rewrite <- Hi, <- Hl, (Hroot d eq_refl). reflexivity.
Qed.

(** ** Paths *)

Lemma parent_snoc (rt : str) (ps : list str) (x : str) :
  parent (mkPath rt (ps ++ [x])) = mkPath rt ps.
Proof.
  unfold parent. cbn [parts root]. rewrite removelast_last.
  destruct ps; reflexivity.
Qed.

Lemma parent_root (p : Path) : root (parent p) = root p.
Proof.
  unfold parent. destruct (parts p); reflexivity.
Qed.

Lemma truediv_logo (p : Path) :
  truediv p (lit "logo.jpg") = mkPath (root p) (parts p ++ [lit "logo.jpg"]).
Proof. reflexivity. Qed.

Lemma default_root_dir_absolute (w : World) :
  is_absolute (get_default_root_dir w) = true.
Proof.
  unfold is_absolute, get_default_root_dir. rewrite !parent_root.
  apply (realpath_absolute w).
Qed.

(** With no dotenv file, what construction does when the three validated
    fields are given by the process environment or their defaults. *)
Lemma Settings_new_no_file (u : UnicodeData) (m : Module) (w : World)
      (l : Logging) (k : FileKind) (a t g : str) (i : Path) :
  is_file w (Config_env_file m) = Ok false ->
  match env_value u w (lit "app_name") with
  | Some v => v | None => lit "mirugai" end = a ->
  match env_value u w (lit "app_tagline") with
  | Some v => v | None => lit "Let's make some clams" end = t ->
  env_value u w (lit "root_dir") = None ->
  match env_value u w (lit "app_logo_image") with
  | Some v => of_str v
  | None => truediv (get_default_root_dir w) (lit "logo.jpg") end = i ->
  match env_value u w (lit "log_level") with
  | Some v => v | None => lit "INFO" end = g ->
  stat w (get_default_root_dir w) = Found k ->
  validate_str_not_empty a = Ok a ->
  validate_log_level u g = Ok g ->
  Settings_new u m w l
  = (Built (mkSettings a t (get_default_root_dir w) i g), l).
Proof.
  intros Hfile Ha Ht Hr Hi Hg Hroot Va Vg.
  unfold Settings_new, ret. f_equal.
  pose proof (build_values_no_file u m w Hfile) as Hd. rewrite Hd.
  set (d := dict_update [] (EnvSettingsSource u w)) in *.
  assert (G : forall f, mem f field_names = true -> dict_get f d = env_value u w f).
  { intros f Hf. now apply (build_values_no_file_get u m w d f). }
  assert (Da : input_app_name d = a).
  { unfold input_app_name. now rewrite G by reflexivity. }
  assert (Dt : input_app_tagline d = t).
  { unfold input_app_tagline. now rewrite G by reflexivity. }
  assert (Dr : input_root_dir w d = get_default_root_dir w).
  { unfold input_root_dir. rewrite G by reflexivity. now rewrite Hr. }
  assert (Di : input_app_logo_image w d = i).
  { unfold input_app_logo_image. now rewrite G by reflexivity. }
  assert (Dg : input_log_level d = g).
  { unfold input_log_level. now rewrite G by reflexivity. }
  rewrite (model_validate_Built u w d a g (get_default_root_dir w)).
  - now rewrite Dt, Di.
  - now rewrite Da.
  - rewrite Dr. unfold validate_path_exists, path_exists. now rewrite Hroot.
  - now rewrite Dg.
  - apply extra_errors_nil. intros kv.
    now apply (build_values_no_file_keys u m w d kv).
Qed.

(** ** The claims *)




(** The three layers at once: the file names [app_name] and [log_level], the
    process environment names [log_level] again, in lower case. *)
Example env_over_file_over_default :
  fst (Settings_new caseless app_module
         (world_dotenv [(lit "APP_NAME", Some (lit "clam"));
                        (lit "LOG_LEVEL", Some (lit "warning"))]
                       [(lit "log_level", lit "debug")]) fresh_logging)
  = Built {| app_name := lit "clam";
             app_tagline := lit "Let's make some clams";
             root_dir := of_str (lit "/srv/app");
             app_logo_image := of_str (lit "/srv/app/logo.jpg");
             log_level := lit "debug" |}.
Proof. reflexivity. Qed.

(** A name the file writes without a value hides the value an earlier line
    gave the same name in another case. *)
Example dotenv_bare_key_hides_earlier_value :
  fst (Settings_new caseless app_module
         (world_dotenv [(lit "LOG_LEVEL", Some (lit "debug"));
                        (lit "log_level", None)] []) fresh_logging)
  = Built {| app_name := lit "mirugai";
             app_tagline := lit "Let's make some clams";
             root_dir := of_str (lit "/srv/app");
             app_logo_image := of_str (lit "/srv/app/logo.jpg");
             log_level := lit "INFO" |}.
Proof. reflexivity. Qed.

(** A key of the dotenv file that is no field fails the construction. *)
Example dotenv_extra_key_forbidden :
  fst (Settings_new caseless app_module
         (world_dotenv [(lit "PORT", Some (lit "8000"))] []) fresh_logging)
  = ValidationError [mkError (lit "port") extra_forbidden].
Proof. reflexivity. Qed.

(** What the file takes from the process environment changes with it. *)
Example dotenv_interpolates_environment :
  fst (Settings_new caseless app_module
         (world_interpolating [(lit "APP_TAGLINE", [])]) fresh_logging)
  = ValidationError
      [mkError (lit "app_name")
         (value_error (ValueError [lit "app_name must not be empty"]))].
Proof. reflexivity. Qed.
(** Every string outside the five levels is rejected, with the two
    arguments the source gives the exception. *)
Lemma validate_log_level_rejects (u : UnicodeData) (v : str) :
  mem (upper u v) LEVELS = false ->
  validate_log_level u v =
  Raise (ValueError [lit "log_level must be one of DEBUG, INFO, WARNING, ERROR";
                     lit "CRITICAL"]).
Proof.
  intros H. unfold validate_log_level. now rewrite H.
Qed.

(** C2. The level ["verbose"] is rejected, but the exception is raised with
    two arguments, the text up to [ERROR] and ["CRITICAL"]: its message is
    the rendering of that pair, not the sentence naming the five levels. *)
Theorem log_level_error_message_is_a_pair :
  mem (upper caseless (lit "verbose")) LEVELS = false
  /\ validate_log_level caseless (lit "verbose") =
     Raise (ValueError [lit "log_level must be one of DEBUG, INFO, WARNING, ERROR";
                        lit "CRITICAL"])
  /\ exc_str (ValueError [lit "log_level must be one of DEBUG, INFO, WARNING, ERROR";
                          lit "CRITICAL"])
     = lit "('log_level must be one of DEBUG, INFO, WARNING, ERROR', 'CRITICAL')"
  /\ exc_str (ValueError [lit "log_level must be one of DEBUG, INFO, WARNING, ERROR";
                          lit "CRITICAL"])
     <> lit "log_level must be one of DEBUG, INFO, WARNING, ERROR, CRITICAL".
Proof.
  repeat split; try reflexivity.
  vm_compute. discriminate.
Qed.

(** C3. A string whose upper-cased form is one of the five levels passes the
    validator unchanged; when it is the value collected for [log_level], a
    built instance stores it as written, and a failed construction has no
    error at [log_level]. *)

(** An exception of [Path.exists()] is the one the validator raises, and
    [Settings()] with it. *)
Lemma path_exists_uncaught (w : World) (v : Path) :
  match path_exists w v with
  | Ok _ => uncaught (validate_path_exists w v) = None
  | Raise e => uncaught (validate_path_exists w v) = Some e
  end.
Proof.
  unfold validate_path_exists, path_exists.
  destruct (stat w v) as [k|errno strerror|]; try reflexivity.
  destruct (ignore_error errno); reflexivity.
Qed.

(** C3. A string whose upper-cased form is one of the five levels passes the
    validator unchanged. When it is the value collected for [log_level] and
    the other fields are accepted, an instance is built that stores it as
    written; whatever the other fields are, a built instance stores it as
    written and a validation error has no entry at [log_level]. *)
Theorem log_level_case_preserved (u : UnicodeData) (v : str) :
  mem (upper u v) LEVELS = true ->
  validate_log_level u v = Ok v
  /\ (forall (m : Module) (w : World) (l : Logging) (d : dict) (a : str) (r : Path),
        settings_build_values u m w = Ok d ->
        input_log_level d = v ->
        validate_str_not_empty (input_app_name d) = Ok a ->
        validate_path_exists w (input_root_dir w d) = Ok r ->
        extra_errors d = [] ->
        Settings_new u m w l
        = (Built (mkSettings a (input_app_tagline d) r
                             (input_app_logo_image w d) v), l))
  /\ (forall (m : Module) (w : World) (l : Logging) (d : dict),
        settings_build_values u m w = Ok d ->
        input_log_level d = v ->
        match fst (Settings_new u m w l) with
        | Built s => log_level s = v
        | ValidationError errs =>
            forall e, In e errs -> loc e <> lit "log_level"
        | Propagated _ => True
        end).
Proof.
  intros Hv.
  assert (Hok : validate_log_level u v = Ok v).
  { unfold validate_log_level. now rewrite Hv. }
  split; [exact Hok|]. split.
  - intros m w l d a r Hd Hin Ha Hr He. unfold Settings_new, ret. rewrite Hd.
    f_equal. apply model_validate_Built; try assumption. now rewrite Hin.
  - intros m w l d Hd Hin. unfold Settings_new, ret. cbn [fst]. rewrite Hd.
    destruct (model_validate u w d) as [s|errs|x] eqn:E; [| |exact I].
    + apply model_validate_Built_inv in E as (_ & _ & Hg & _).
      rewrite Hin, Hok in Hg. congruence.
    + intros e He.
      destruct (model_validate_error_origin u w _ errs e E He)
        as [[x [-> _]]|[[x [-> _]]|[[x [_ Hx]]|[_ Hx]]]].
      * vm_compute. discriminate.
      * vm_compute. discriminate.
      * rewrite Hin, Hok in Hx. discriminate.
      * intros Hl. rewrite Hl in Hx. discriminate.
Qed.

Lemma log_level_case_preserved_witness :
  validate_log_level caseless (lit "Info") = Ok (lit "Info")
  /\ Settings_new caseless app_module
       (world_with [(lit "LOG_LEVEL", lit "Info")]) fresh_logging
     = (Built {| app_name := lit "mirugai";
                 app_tagline := lit "Let's make some clams";
                 root_dir := of_str (lit "/srv/app");
                 app_logo_image := of_str (lit "/srv/app/logo.jpg");
                 log_level := lit "Info" |}, fresh_logging).
Proof.
  destruct (log_level_case_preserved caseless (lit "Info") eq_refl)
    as (H1 & H2 & _).
  split; [exact H1|].
  apply (H2 app_module (world_with [(lit "LOG_LEVEL", lit "Info")])
            fresh_logging [(lit "log_level", lit "Info")]
            (lit "mirugai") (of_str (lit "/srv/app")));
    reflexivity.
Defined.

Example log_level_lower : validate_log_level caseless (lit "info") = Ok (lit "info").
Proof. reflexivity. Qed.

Example log_level_upper : validate_log_level caseless (lit "INFO") = Ok (lit "INFO").
Proof. reflexivity. Qed.

Example log_level_mixed :
  validate_log_level caseless (lit "cRiTiCaL") = Ok (lit "cRiTiCaL").
Proof. reflexivity. Qed.

(** C4, as the source has it. An [app_name] that is empty once trimmed is
    rejected with the message ["app_name must not be empty"], and
    construction fails: with a validation error that has this error at
    [app_name] when the existence check of [root_dir] gives an answer, with
    the exception of that check when it raises one. Any other [app_name]
    passes unchanged; with the other fields accepted an instance is built
    that stores it as written, untrimmed. *)
Theorem app_name_checked_not_trimmed (u : UnicodeData) (v : str) :
  (strip v = [] ->
   validate_str_not_empty v = Raise (ValueError [lit "app_name must not be empty"])
   /\ exc_str (ValueError [lit "app_name must not be empty"])
      = lit "app_name must not be empty"
   /\ forall (m : Module) (w : World) (l : Logging) (d : dict),
        settings_build_values u m w = Ok d ->
        input_app_name d = v ->
        (forall b, path_exists w (input_root_dir w d) = Ok b ->
           exists errs,
             Settings_new u m w l = (ValidationError errs, l)
             /\ In (mkError (lit "app_name")
                      (value_error (ValueError [lit "app_name must not be empty"])))
                   errs)
        /\ (forall e, path_exists w (input_root_dir w d) = Raise e ->
              Settings_new u m w l = (Propagated e, l)))
  /\ (strip v <> [] ->
      validate_str_not_empty v = Ok v
      /\ (forall (m : Module) (w : World) (l : Logging) (d : dict)
                 (g : str) (r : Path),
            settings_build_values u m w = Ok d ->
            input_app_name d = v ->
            validate_path_exists w (input_root_dir w d) = Ok r ->
            validate_log_level u (input_log_level d) = Ok g ->
            extra_errors d = [] ->
            Settings_new u m w l
            = (Built (mkSettings v (input_app_tagline d) r
                                 (input_app_logo_image w d) g), l))
      /\ (forall (m : Module) (w : World) (l : Logging) (d : dict),
            settings_build_values u m w = Ok d ->
            input_app_name d = v ->
            match fst (Settings_new u m w l) with
            | Built s => app_name s = v
            | ValidationError errs =>
                forall e, In e errs -> loc e <> lit "app_name"
            | Propagated _ => True
            end)).
Proof.
  split.
  - intros Hs.
    assert (Hr : validate_str_not_empty v
                 = Raise (ValueError [lit "app_name must not be empty"])).
    { unfold validate_str_not_empty. now rewrite Hs. }
    split; [exact Hr|]. split; [reflexivity|].
    intros m w l d Hd Hin. unfold Settings_new, ret. rewrite Hd.
    pose proof (path_exists_uncaught w (input_root_dir w d)) as Hu.
    split.
    + intros b Hb. rewrite Hb in Hu.
      destruct (model_validate_reports u w d (lit "app_name")
                  [lit "app_name must not be empty"] Hu) as [errs [E Hin']].
      { left. split; [reflexivity|]. now rewrite Hin. }
      exists errs. now rewrite E.
    + intros e He. rewrite He in Hu. f_equal.
      now apply model_validate_Propagated.
  - intros Hs.
    assert (Hok : validate_str_not_empty v = Ok v).
    { unfold validate_str_not_empty. destruct (strip v); [congruence|reflexivity]. }
    split; [exact Hok|]. split.
    + intros m w l d g r Hd Hin Hr Hg He. unfold Settings_new, ret. rewrite Hd.
      f_equal. apply model_validate_Built; try assumption. now rewrite Hin.
    + intros m w l d Hd Hin. unfold Settings_new, ret. cbn [fst]. rewrite Hd.
      destruct (model_validate u w d) as [s|errs|x] eqn:E; [| |exact I].
      * apply model_validate_Built_inv in E as (Ha & _).
        rewrite Hin, Hok in Ha. congruence.
      * intros e He.
        destruct (model_validate_error_origin u w _ errs e E He)
          as [[x [_ Hx]]|[[x [-> _]]|[[x [-> _]]|[_ Hx]]]].
        -- rewrite Hin, Hok in Hx. discriminate.
        -- vm_compute. discriminate.
        -- vm_compute. discriminate.
        -- intros Hl. rewrite Hl in Hx. discriminate.
Qed.

Lemma app_name_checked_not_trimmed_witness :
  (exists errs,
     Settings_new caseless app_module (world_with [(lit "APP_NAME", [9])])
       fresh_logging
     = (ValidationError errs, fresh_logging)
     /\ In (mkError (lit "app_name")
              (value_error (ValueError [lit "app_name must not be empty"])))
           errs)
  /\ Settings_new caseless app_module (world_with [(lit "APP_NAME", lit " x ")])
       fresh_logging
     = (Built {| app_name := lit " x ";
                 app_tagline := lit "Let's make some clams";
                 root_dir := of_str (lit "/srv/app");
                 app_logo_image := of_str (lit "/srv/app/logo.jpg");
                 log_level := lit "INFO" |}, fresh_logging).
Proof.
  split.
  - destruct (app_name_checked_not_trimmed caseless [9]) as [H _].
    destruct (H eq_refl) as (_ & _ & Hc).
    destruct (Hc app_module (world_with [(lit "APP_NAME", [9])]) fresh_logging
                 [(lit "app_name", [9])] eq_refl eq_refl) as [Hv _].
    apply (Hv true). reflexivity.
  - destruct (app_name_checked_not_trimmed caseless (lit " x ")) as [_ H].
    assert (Hne : strip (lit " x ") <> []) by (vm_compute; discriminate).
    destruct (H Hne) as (_ & Hc & _).
    apply (Hc app_module (world_with [(lit "APP_NAME", lit " x ")])
              fresh_logging [(lit "app_name", lit " x ")]
              (lit "INFO") (of_str (lit "/srv/app")));
      reflexivity.
Defined.

(** C4, as the claim has it, fails: with a blank [APP_NAME] and a
    [ROOT_DIR] whose name is too long for the file system, construction
    fails with the [OSError] of the existence check, and no validation
    error with the message for [app_name] is raised. *)
Lemma app_name_error_lost_to_oserror :
  let w := world_with [(lit "APP_NAME", lit " "); (lit "ROOT_DIR", long_path)] in
  strip (lit " ") = []
  /\ Settings_new caseless app_module w fresh_logging
     = (Propagated (OSError ENAMETOOLONG (lit "File name too long") long_path),
        fresh_logging)
  /\ forall errs,
       Settings_new caseless app_module w fresh_logging
       <> (ValidationError errs, fresh_logging).
Proof.
  intros w.
  assert (E : Settings_new caseless app_module w fresh_logging
              = (Propagated (OSError ENAMETOOLONG (lit "File name too long")
                               long_path), fresh_logging))
    by (vm_compute; reflexivity).
  split; [reflexivity|]. split; [exact E|].
  intros errs H. rewrite E in H. discriminate H.
Qed.

Example app_name_empty :
  validate_str_not_empty [] = Raise (ValueError [lit "app_name must not be empty"]).
Proof. reflexivity. Qed.

Example app_name_blank :
  validate_str_not_empty (lit " ")
  = Raise (ValueError [lit "app_name must not be empty"]).
Proof. reflexivity. Qed.

Example app_name_tab :
  validate_str_not_empty [9] = Raise (ValueError [lit "app_name must not be empty"]).
Proof. reflexivity. Qed.

Example app_name_padded : validate_str_not_empty (lit " x ") = Ok (lit " x ").
Proof. reflexivity. Qed.

(** X9. The [app_name] validator rejects exactly the strings in which every
    character is whitespace, the empty string among them: one character
    that is not whitespace, wherever it stands, makes the name pass
    unchanged. *)
Lemma validate_str_not_empty_whitespace (v : str) :
  validate_str_not_empty v =
  if forallb isspace v
  then Raise (ValueError [lit "app_name must not be empty"])
  else Ok v.
Proof.
  unfold validate_str_not_empty.
  destruct (forallb isspace v) eqn:E.
  - apply strip_nil_iff in E. now rewrite E.
  - destruct (strip v) eqn:S; [|reflexivity].
    apply strip_nil_iff in S. congruence.
Qed.

(** C5, as the source has it. The [root_dir] validator returns the path
    exactly when [os.stat] finds something there. When [Path.exists()]
    answers that nothing is there it raises a [ValueError] whose message is
    the path followed by ["does not exist"]; when [os.stat] fails for
    another reason the validator raises that [OSError], which names the
    path as its file name. Construction never reports an error at
    [app_logo_image], and its outcome is the same whatever the file system
    holds at any path other than the dotenv file and the value of
    [root_dir]. *)
Theorem root_dir_checked_logo_not
        (u : UnicodeData) (m : Module) (w : World) (l : Logging) :
  (forall v, validate_path_exists w v = Ok v <-> exists k, stat w v = Found k)
  /\ (forall v, path_exists w v = Ok false ->
        validate_path_exists w v
        = Raise (ValueError [fspath v ++ lit " does not exist"])
        /\ exc_str (ValueError [fspath v ++ lit " does not exist"])
           = fspath v ++ lit " does not exist")
  /\ (forall v e, path_exists w v = Raise e ->
        validate_path_exists w v = Raise e
        /\ exists errno strerror,
             e = OSError errno strerror (fspath v)
             /\ stat w v = OSFails errno strerror
             /\ ignore_error errno = false)
  /\ (forall errs e,
        fst (Settings_new u m w l) = ValidationError errs ->
        In e errs -> loc e <> lit "app_logo_image")
  /\ (forall st : Path -> StatResult,
        st (Config_env_file m) = stat w (Config_env_file m) ->
        (forall d, settings_build_values u m w = Ok d ->
                   st (input_root_dir w d) = stat w (input_root_dir w d)) ->
        Settings_new u m (with_stat w st) l = Settings_new u m w l).
Proof.
  split; [|split; [|split; [|split]]].
  - intros v. split.
    + intros H. now apply validate_path_exists_Ok in H.
    + intros [k H]. unfold validate_path_exists, path_exists. now rewrite H.
  - intros v H. split; [|reflexivity].
    unfold validate_path_exists. now rewrite H.
  - intros v e H. split.
    + unfold validate_path_exists. now rewrite H.
    + unfold path_exists in H.
      destruct (stat w v) as [k|errno strerror|]; try discriminate.
      destruct (ignore_error errno) eqn:E; [discriminate|].
      injection H as <-. now exists errno, strerror.
  - intros errs e E He. unfold Settings_new, ret in E. cbn [fst] in E.
    destruct (settings_build_values u m w) as [d|x]; [|discriminate].
    destruct (model_validate_error_origin u w _ errs e E He)
      as [[x [-> _]]|[[x [-> _]]|[[x [-> _]]|[_ Hx]]]];
      try (vm_compute; discriminate).
    intros Hl. rewrite Hl in Hx. discriminate.
  - intros st Henv Hroot. symmetry.
    apply Settings_new_frame; try reflexivity.
    + symmetry. exact Henv.
    + intros d Hd. symmetry. now apply Hroot.
Qed.

Lemma root_dir_checked_logo_not_witness :
  let w := world_only [] [(lit "ROOT_DIR", lit "/nowhere")] in
  let w' := world_only [] [] in
  let st := fun p => if eqb (fspath p) (lit "/srv/app/logo.jpg")
                     then Found RegularFile else stat w' p in
  validate_path_exists w (of_str (lit "/nowhere"))
  = Raise (ValueError [lit "/nowhere does not exist"])
  /\ validate_path_exists w (of_str (lit "/srv/app")) = Ok (of_str (lit "/srv/app"))
  /\ validate_path_exists w (of_str long_path)
     = Raise (OSError ENAMETOOLONG (lit "File name too long") long_path)
  /\ stat w' (of_str (lit "/srv/app/logo.jpg")) = no_such_file
  /\ Settings_new caseless app_module (with_stat w' st) fresh_logging
     = Settings_new caseless app_module w' fresh_logging.
Proof.
  intros w w' st.
  destruct (root_dir_checked_logo_not caseless app_module w fresh_logging)
    as (H1 & H2 & H3 & _).
  destruct (root_dir_checked_logo_not caseless app_module w' fresh_logging)
    as (_ & _ & _ & _ & H5).
  split; [apply (H2 (of_str (lit "/nowhere"))); reflexivity|].
  split; [apply (H1 (of_str (lit "/srv/app"))); now exists Directory|].
  split; [apply (H3 (of_str long_path)); reflexivity|].
  split; [reflexivity|].
  apply (H5 st); [reflexivity|].
  intros d Hd. vm_compute in Hd. injection Hd as <-. reflexivity.
Defined.

(** C5, as the claim has it, fails: the directory [/private/data] is there
    (the file system of [world_with] holds it), but the process may not
    search [/private], so [os.stat] is refused. The validator fails on a
    path that exists: [Path.exists()] has not answered that the path is
    missing, and what is raised is the [OSError], which [Settings()] raises
    in turn. *)
Lemma root_dir_check_refused :
  let w := world_private [(lit "ROOT_DIR", lit "/private/data")] in
  stat (world_with [(lit "ROOT_DIR", lit "/private/data")])
       (of_str (lit "/private/data")) = Found Directory
  /\ stat w (of_str (lit "/private/data")) = permission_denied
  /\ path_exists w (of_str (lit "/private/data")) <> Ok false
  /\ validate_path_exists w (of_str (lit "/private/data"))
     = Raise (OSError EACCES (lit "Permission denied") (lit "/private/data"))
  /\ Settings_new caseless app_module w fresh_logging
     = (Propagated (OSError EACCES (lit "Permission denied") (lit "/private/data")),
        fresh_logging).
Proof.
  intros w. repeat split; try reflexivity.
  vm_compute. discriminate.
Qed.

(** C6, as the source has it. With no dotenv file, none of the five names in
    the process environment and the project directory of the module in
    place, construction yields the five defaults: ["mirugai"], the tagline,
    the directory two levels above the resolved location of the module,
    which is absolute, that directory joined with ["logo.jpg"], and
    ["INFO"]. *)
Theorem defaults_when_nothing_set
        (u : UnicodeData) (m : Module) (w : World) (l : Logging) (k : FileKind) :
  (forall f, In f field_names -> env_value u w f = None) ->
  is_file w (Config_env_file m) = Ok false ->
  stat w (get_default_root_dir w) = Found k ->
  Settings_new u m w l =
  (Built {| app_name := lit "mirugai";
            app_tagline := lit "Let's make some clams";
            root_dir := get_default_root_dir w;
            app_logo_image := truediv (get_default_root_dir w) (lit "logo.jpg");
            log_level := lit "INFO" |}, l)
  /\ is_absolute (get_default_root_dir w) = true
  /\ forall (ps : list str) (pkg file : str),
       parts (realpath w (of_str (module_file w))) = ps ++ [pkg; file] ->
       get_default_root_dir w
       = mkPath (root (realpath w (of_str (module_file w)))) ps
       /\ truediv (get_default_root_dir w) (lit "logo.jpg")
          = mkPath (root (realpath w (of_str (module_file w))))
                   (ps ++ [lit "logo.jpg"]).
Proof.
  intros Henv Hfile Hroot.
  assert (Hnone : forall f, mem f field_names = true -> env_value u w f = None).
  { intros f Hf. apply Henv. now apply mem_In. }
  split; [|split].
  - apply (Settings_new_no_file u m w l k); try assumption;
      try (now rewrite Hnone by reflexivity); reflexivity.
  - apply default_root_dir_absolute.
  - intros ps pkg file Hps.
    assert (Hd : get_default_root_dir w
                 = mkPath (root (realpath w (of_str (module_file w)))) ps).
    { unfold get_default_root_dir.
      destruct (realpath w (of_str (module_file w))) as [rt pp].
      cbn [parts root] in *. subst pp.
      change (ps ++ [pkg; file]) with (ps ++ [pkg] ++ [file]).
      rewrite app_assoc. now rewrite !parent_snoc. }
    split; [exact Hd|]. now rewrite Hd, truediv_logo.
Qed.

Lemma defaults_when_nothing_set_witness :
  Settings_new caseless app_module (world_with [(lit "HOME", lit "/root")])
    fresh_logging =
  (Built {| app_name := lit "mirugai";
            app_tagline := lit "Let's make some clams";
            root_dir := of_str (lit "/srv/app");
            app_logo_image := of_str (lit "/srv/app/logo.jpg");
            log_level := lit "INFO" |}, fresh_logging)
  /\ is_absolute (of_str (lit "/srv/app")) = true.
Proof.
  destruct (defaults_when_nothing_set caseless app_module
              (world_with [(lit "HOME", lit "/root")]) fresh_logging Directory)
    as (H1 & H2 & _).
  - intros f Hf. cbn in Hf.
    repeat (destruct Hf as [<-|Hf]; [reflexivity|]). contradiction.
  - reflexivity.
  - reflexivity.
  - split; [exact H1 | exact H2].
Defined.

(** C6, as the claim has it, fails: the default of [root_dir] is validated
    like a supplied value, so with no dotenv file and an empty process
    environment construction fails where the project directory is gone. *)
Lemma defaults_need_project_directory :
  let w := with_stat (world_with []) (fun _ => no_such_file) in
  environ w = []
  /\ is_file w (Config_env_file app_module) = Ok false
  /\ Settings_new caseless app_module w fresh_logging
     = (ValidationError
          [mkError (lit "root_dir")
             (value_error (ValueError [lit "/srv/app does not exist"]))],
        fresh_logging).
Proof.
  intros w. repeat split; reflexivity.
Qed.

(** C7, as the source has it: an [app_logo_image] no source supplies is the
    project directory of the module joined with ["logo.jpg"], whatever
    [root_dir] is; it is [root_dir] joined with ["logo.jpg"] when no source
    supplies [root_dir] either. *)
Theorem logo_default_is_project_logo
        (u : UnicodeData) (m : Module) (w : World) (l : Logging) (s : Settings) :
  fst (Settings_new u m w l) = Built s ->
  env_value u w (lit "app_logo_image") = None ->
  file_value u m w (lit "app_logo_image") = None ->
  app_logo_image s = truediv (get_default_root_dir w) (lit "logo.jpg")
  /\ (env_value u w (lit "root_dir") = None ->
      file_value u m w (lit "root_dir") = None ->
      app_logo_image s = truediv (root_dir s) (lit "logo.jpg")).
Proof.
  intros E He Hf. unfold Settings_new, ret in E. cbn [fst] in E.
  destruct (settings_build_values u m w) as [d|x] eqn:Hd; [|discriminate].
  apply model_validate_Built_inv in E as (_ & Hr & _ & _ & _ & Hi).
  assert (Hlogo : app_logo_image s
                  = truediv (get_default_root_dir w) (lit "logo.jpg")).
  { rewrite Hi. unfold input_app_logo_image.
    rewrite (build_values_get u m w d _ Hd) by reflexivity. now rewrite He, Hf. }
  split; [exact Hlogo|].
  intros He' Hf'. apply validate_path_exists_Ok in Hr as [Hr _].
  rewrite Hlogo, Hr. unfold input_root_dir.
  rewrite (build_values_get u m w d _ Hd) by reflexivity. now rewrite He', Hf'.
Qed.

Lemma logo_default_is_project_logo_witness :
  let w := world_with [(lit "ROOT_DIR", lit "/tmp")] in
  let s := {| app_name := lit "mirugai";
              app_tagline := lit "Let's make some clams";
              root_dir := of_str (lit "/tmp");
              app_logo_image := of_str (lit "/srv/app/logo.jpg");
              log_level := lit "INFO" |} in
  fst (Settings_new caseless app_module w fresh_logging) = Built s
  /\ app_logo_image s = truediv (get_default_root_dir w) (lit "logo.jpg").
Proof.
  intros w s.
  assert (E : fst (Settings_new caseless app_module w fresh_logging) = Built s)
    by reflexivity.
  split; [exact E|].
  apply (logo_default_is_project_logo caseless app_module w fresh_logging s E);
    reflexivity.
Defined.

(** C7, as the claim has it, fails: with [ROOT_DIR=/tmp] in the process
    environment and [app_logo_image] left to its default, the logo is still
    the one of the project directory, not [/tmp/logo.jpg]. *)
Lemma logo_ignores_root_dir_override :
  let w := world_with [(lit "ROOT_DIR", lit "/tmp")] in
  exists s,
    Settings_new caseless app_module w fresh_logging = (Built s, fresh_logging)
    /\ settings_build_values caseless app_module w
       = Ok [(lit "root_dir", lit "/tmp")]
    /\ root_dir s = of_str (lit "/tmp")
    /\ app_logo_image s = of_str (lit "/srv/app/logo.jpg")
    /\ app_logo_image s <> truediv (root_dir s) (lit "logo.jpg").
Proof.
  eexists. split; [vm_compute; reflexivity|].
  repeat split; try reflexivity.
  vm_compute. discriminate.
Qed.

(** C8, as the source has it. Construction is all or nothing. A validator
    that raises a [ValueError] makes the construction fail; the validation
    error then has an entry under the name of its field that carries what
    was raised, provided the existence check of [root_dir] gives an answer.
    When that check, or the look at the dotenv file, raises an [OSError],
    construction raises this exception, which names no field. A validation
    error reports at least one error; no failure carries an instance; a
    built instance holds the five values the sources and the defaults gave,
    and each of the three validators accepts its field. *)
Theorem construction_all_or_nothing
        (u : UnicodeData) (m : Module) (w : World) (l : Logging) :
  (forall (d : dict) (name : str) (args : list str),
     settings_build_values u m w = Ok d ->
     (name = lit "app_name"
      /\ validate_str_not_empty (input_app_name d) = Raise (ValueError args))
     \/ (name = lit "root_dir"
         /\ validate_path_exists w (input_root_dir w d) = Raise (ValueError args))
     \/ (name = lit "log_level"
         /\ validate_log_level u (input_log_level d) = Raise (ValueError args)) ->
     forall b, path_exists w (input_root_dir w d) = Ok b ->
     exists errs,
       Settings_new u m w l = (ValidationError errs, l)
       /\ In (mkError name (value_error (ValueError args))) errs)
  /\ (forall (d : dict) (e : Exception),
        settings_build_values u m w = Ok d ->
        path_exists w (input_root_dir w d) = Raise e ->
        validate_path_exists w (input_root_dir w d) = Raise e
        /\ Settings_new u m w l = (Propagated e, l))
  /\ (forall e, is_file w (Config_env_file m) = Raise e ->
        Settings_new u m w l = (Propagated e, l))
  /\ (forall errs,
        fst (Settings_new u m w l) = ValidationError errs -> errs <> [])
  /\ (forall s,
        fst (Settings_new u m w l) = Built s ->
        exists d,
          settings_build_values u m w = Ok d
          /\ s = mkSettings (input_app_name d) (input_app_tagline d)
                            (input_root_dir w d) (input_app_logo_image w d)
                            (input_log_level d)
          /\ validate_str_not_empty (app_name s) = Ok (app_name s)
          /\ validate_path_exists w (root_dir s) = Ok (root_dir s)
          /\ validate_log_level u (log_level s) = Ok (log_level s)).
Proof.
  split; [|split; [|split; [|split]]].
  - intros d name args Hd H b Hb.
    pose proof (path_exists_uncaught w (input_root_dir w d)) as Hu.
    rewrite Hb in Hu.
    destruct (model_validate_reports u w d name args Hu H) as [errs [E Hin]].
    exists errs. unfold Settings_new, ret. now rewrite Hd, E.
  - intros d e Hd He.
    pose proof (path_exists_uncaught w (input_root_dir w d)) as Hu.
    rewrite He in Hu. split.
    + unfold validate_path_exists. now rewrite He.
    + unfold Settings_new, ret. rewrite Hd. f_equal.
      now apply model_validate_Propagated.
  - intros e He. unfold Settings_new, ret, settings_build_values,
      DotEnvSettingsSource, read_env_file. now rewrite He.
  - intros errs E. unfold Settings_new, ret in E. cbn [fst] in E.
    destruct (settings_build_values u m w) as [d|x]; [|discriminate].
    now apply model_validate_errors in E.
  - intros s E. unfold Settings_new, ret in E. cbn [fst] in E.
    destruct (settings_build_values u m w) as [d|x]; [|discriminate].
    exists d. split; [reflexivity|].
    apply model_validate_Built_inv in E as (Ha & Hr & Hg & _ & Ht & Hi).
    destruct (validate_str_not_empty_Ok _ _ Ha) as [Ea _].
    destruct (validate_path_exists_Ok _ _ _ Hr) as [Er _].
    destruct (validate_log_level_Ok _ _ _ Hg) as [Eg _].
    split.
    + destruct s as [a t r i g]. cbn [app_name app_tagline root_dir
                                      app_logo_image log_level] in *.
      congruence.
    + rewrite <- Ea in Ha at 1. rewrite <- Er in Hr at 1.
      rewrite <- Eg in Hg at 1. now repeat split.
Qed.

Lemma construction_all_or_nothing_witness :
  let bad := world_with [(lit "LOG_LEVEL", lit "verbose")] in
  let good := world_with [(lit "LOG_LEVEL", lit "Error")] in
  let long := world_with [(lit "ROOT_DIR", long_path)] in
  let s := {| app_name := lit "mirugai";
              app_tagline := lit "Let's make some clams";
              root_dir := of_str (lit "/srv/app");
              app_logo_image := of_str (lit "/srv/app/logo.jpg");
              log_level := lit "Error" |} in
  (exists errs,
     Settings_new caseless app_module bad fresh_logging
     = (ValidationError errs, fresh_logging)
     /\ In (mkError (lit "log_level")
              (value_error
                 (ValueError
                    [lit "log_level must be one of DEBUG, INFO, WARNING, ERROR";
                     lit "CRITICAL"]))) errs)
  /\ Settings_new caseless app_module long fresh_logging
     = (Propagated (OSError ENAMETOOLONG (lit "File name too long") long_path),
        fresh_logging)
  /\ fst (Settings_new caseless app_module good fresh_logging) = Built s
  /\ validate_path_exists good (root_dir s) = Ok (root_dir s).
Proof.
  intros bad good long s.
  destruct (construction_all_or_nothing caseless app_module bad fresh_logging)
    as (H1 & _).
  destruct (construction_all_or_nothing caseless app_module long fresh_logging)
    as (_ & H2 & _).
  destruct (construction_all_or_nothing caseless app_module good fresh_logging)
    as (_ & _ & _ & _ & H5).
  split; [|split].
  - apply (H1 [(lit "log_level", lit "verbose")] (lit "log_level") _ eq_refl)
      with (b := true); [|reflexivity].
    right; right. split; reflexivity.
  - apply (H2 [(lit "root_dir", long_path)]); reflexivity.
  - assert (E : fst (Settings_new caseless app_module good fresh_logging)
                = Built s) by reflexivity.
    split; [exact E|].
    destruct (H5 s E) as (d & _ & _ & _ & Hr & _). exact Hr.
Defined.

(** C8, as the claim has it, fails: with a [ROOT_DIR] under a directory the
    process may not search, the validator of [root_dir] fails and
    construction with it, but what is raised is the [OSError] of [os.stat],
    not a validation error: no field is reported. *)
Lemma root_dir_failure_names_no_field :
  let w := world_private [(lit "ROOT_DIR", lit "/private/data")] in
  settings_build_values caseless app_module w
  = Ok [(lit "root_dir", lit "/private/data")]
  /\ validate_path_exists w (of_str (lit "/private/data"))
     = Raise (OSError EACCES (lit "Permission denied") (lit "/private/data"))
  /\ (forall errs,
        fst (Settings_new caseless app_module w fresh_logging)
        <> ValidationError errs)
  /\ (forall s,
        fst (Settings_new caseless app_module w fresh_logging) <> Built s).
Proof.
  intros w.
  assert (E : fst (Settings_new caseless app_module w fresh_logging)
              = Propagated (OSError EACCES (lit "Permission denied")
                              (lit "/private/data")))
    by (vm_compute; reflexivity).
  repeat split; try reflexivity; intros x H; rewrite E in H; discriminate H.
Qed.



(** With [ROOT_DIR] naming a regular file, construction succeeds and stores
    that path. *)
Example root_dir_regular_file_accepted :
  fst (Settings_new caseless app_module
         (world_only [(lit "/etc/hosts", RegularFile)]
                     [(lit "ROOT_DIR", lit "/etc/hosts")]) fresh_logging)
  = Built {| app_name := lit "mirugai";
             app_tagline := lit "Let's make some clams";
             root_dir := of_str (lit "/etc/hosts");
             app_logo_image := of_str (lit "/srv/app/logo.jpg");
             log_level := lit "INFO" |}.
Proof. reflexivity. Qed.
(** ** Further properties of the module *)

Lemma parent_firstn (p : Path) :
  parent p = mkPath (root p) (firstn (List.length (parts p) - 1) (parts p)).
Proof.
  destruct p as [rt ps]. unfold parent. cbn [root parts].
  destruct ps as [|x r]; [reflexivity|].
  now rewrite removelast_firstn_len, Nat.sub_1_r.
Qed.

(** X1. The default root directory is the resolved location of the module
    with its last two components dropped and its root kept; a location of
    two components or fewer gives the bare root, never an error. *)
Theorem default_root_dir_drops_two (w : World) :
  get_default_root_dir w
  = mkPath (root (realpath w (of_str (module_file w))))
           (firstn (List.length (parts (realpath w (of_str (module_file w)))) - 2)
                   (parts (realpath w (of_str (module_file w)))))
  /\ ((List.length (parts (realpath w (of_str (module_file w)))) <= 2)%nat <->
      parts (get_default_root_dir w) = []).
Proof.
  assert (E : get_default_root_dir w
              = mkPath (root (realpath w (of_str (module_file w))))
                  (firstn (List.length
                             (parts (realpath w (of_str (module_file w)))) - 2)
                          (parts (realpath w (of_str (module_file w)))))).
  { unfold get_default_root_dir.
    destruct (realpath w (of_str (module_file w))) as [rt ps].
    rewrite (parent_firstn (mkPath rt ps)). cbn [root parts].
    rewrite parent_firstn. cbn [root parts].
    rewrite firstn_firstn, length_firstn. f_equal. f_equal. lia. }
  split; [exact E|]. rewrite E. cbn [parts].
  destruct (realpath w (of_str (module_file w))) as [rt ps]. cbn [parts].
  split.
  - intros H. replace (List.length ps - 2)%nat with 0%nat by lia. reflexivity.
  - intros H. apply (f_equal (@List.length str)) in H.
    rewrite length_firstn in H. cbn [List.length] in H. lia.
Qed.

Example default_root_dir_of_shallow_module :
  get_default_root_dir
    {| module_file := lit "/settings.py"; environ := [];
       stat := fun _ => no_such_file; realpath := absolute;
       realpath_absolute := absolute_is_absolute;
       dotenv_values := fun _ _ => [] |}
  = of_str (lit "/").
Proof. reflexivity. Qed.

(** *** The import *)

Lemma get_default_env_file_cases (w : World) (l : Logging) :
  match path_exists w (truediv (get_default_root_dir w) (lit ".env")) with
  | Raise e => get_default_env_file w l = (Raise e, l)
  | Ok true =>
      get_default_env_file w l
      = (Ok (truediv (get_default_root_dir w) (lit ".env")), l)
  | Ok false =>
      get_default_env_file w l
      = (Ok (truediv (get_default_root_dir w) (lit ".env")),
         snd (logger_warning
                (fspath (truediv (get_default_root_dir w) (lit ".env"))
                 ++ lit " does not exist") l))
  end.
Proof.
  unfold get_default_env_file.
  destruct (path_exists w (truediv (get_default_root_dir w) (lit ".env")))
    as [[|]|e]; try reflexivity.
  unfold bind, ret. now destruct (logger_warning _ l).
Qed.

Lemma logger_warning_records (msg : str) (l : Logging) :
  records (snd (logger_warning msg l))
  = records l ++ (if isEnabledFor l WARNING then [(WARNING, msg)] else []).
Proof.
  unfold logger_warning. destruct (isEnabledFor l WARNING); cbn.
  - reflexivity.
  - now rewrite app_nil_r.
Qed.

Lemma basicConfig_records (level : N) (l : Logging) :
  records (snd (basicConfig level l)) = records l.
Proof.
  unfold basicConfig. now destruct (root_handlers l).
Qed.

(** Whether the module's warning gets through after its own
    [basicConfig(level=INFO)]: in a process where nobody touched [logging]
    it does; where the root logger has handlers already, the level the host
    chose decides. *)
Lemma enabled_after_basicConfig (l : Logging) :
  isEnabledFor (snd (basicConfig INFO l)) WARNING
  = if root_handlers l then isEnabledFor l WARNING
    else negb (logger_disabled l)
         && negb (WARNING <=? manager_disable l)
         && (match find (fun n => negb (n =? 0)) (logger_levels l) with
             | Some n => n <=? WARNING
             | None => true
             end).
Proof.
  unfold basicConfig. destruct (root_handlers l) eqn:H; [reflexivity|].
  unfold isEnabledFor, getEffectiveLevel. cbn [snd logger_disabled
    manager_disable logger_levels root_level].
  destruct (logger_disabled l); [reflexivity|].
  destruct (WARNING <=? manager_disable l); [reflexivity|]. cbn [negb andb].
  induction (logger_levels l) as [|n r IH]; [reflexivity|].
  cbn [app find]. destruct (n =? 0); [exact IH | reflexivity].
Qed.

(** X2. Importing the module ends with the [OSError] of [os.stat] when the
    look at [.env] raises one, and otherwise fixes [Config.env_file] to the
    entry [.env] of the default root directory, whether it exists or not.
    The import adds one warning that names the path when nothing is there
    and the warning gets through, which it does in a process where nobody
    touched [logging]; under a host that gave the root logger handlers and
    a level above [WARNING] nothing is added. *)
Theorem import_fixes_env_file_and_warns (w : World) (l : Logging) :
  match path_exists w (truediv (get_default_root_dir w) (lit ".env")) with
  | Raise e =>
      fst (import_module w l) = Raise e
      /\ records (snd (import_module w l)) = records l
  | Ok found =>
      fst (import_module w l)
      = Ok {| Config_env_file := truediv (get_default_root_dir w) (lit ".env") |}
      /\ parent (truediv (get_default_root_dir w) (lit ".env"))
         = get_default_root_dir w
      /\ records (snd (import_module w l))
         = records l
           ++ (if negb found && isEnabledFor (snd (basicConfig INFO l)) WARNING
               then [(WARNING,
                      fspath (truediv (get_default_root_dir w) (lit ".env"))
                      ++ lit " does not exist")]
               else [])
  end
  /\ isEnabledFor (snd (basicConfig INFO fresh_logging)) WARNING = true
  /\ (root_handlers l = true -> (WARNING <? getEffectiveLevel l) = true ->
      records (snd (import_module w l)) = records l).
Proof.
  assert (Hi : import_module w l
               = let (r, l') := get_default_env_file w (snd (basicConfig INFO l)) in
                 (match r with
                  | Ok env_file => Ok {| Config_env_file := env_file |}
                  | Raise e => Raise e
                  end, l')).
  { unfold import_module, bind, ret. now destruct (basicConfig INFO l). }
  pose proof (get_default_env_file_cases w (snd (basicConfig INFO l))) as Hc.
  assert (Hp : parent (truediv (get_default_root_dir w) (lit ".env"))
               = get_default_root_dir w).
  { change (truediv (get_default_root_dir w) (lit ".env"))
      with (mkPath (root (get_default_root_dir w))
                   (parts (get_default_root_dir w) ++ [lit ".env"])).
    rewrite parent_snoc. now destruct (get_default_root_dir w). }
  split; [|split].
  - destruct (path_exists w (truediv (get_default_root_dir w) (lit ".env")))
      as [[|]|e]; rewrite Hi, Hc; cbn [fst snd].
    + rewrite basicConfig_records, app_nil_r. now repeat split.
    + rewrite logger_warning_records, basicConfig_records. cbn [negb andb].
      now repeat split.
    + rewrite basicConfig_records. now split.
  - reflexivity.
  - intros Hh Hlvl.
    assert (Hoff : isEnabledFor (snd (basicConfig INFO l)) WARNING = false).
    { rewrite enabled_after_basicConfig, Hh. unfold isEnabledFor.
      destruct (logger_disabled l); [reflexivity|].
      destruct (WARNING <=? manager_disable l); [reflexivity|].
      apply N.leb_gt. now apply N.ltb_lt. }
    rewrite Hi.
    destruct (path_exists w (truediv (get_default_root_dir w) (lit ".env")))
      as [[|]|e]; rewrite Hc; cbn [snd];
      rewrite ?logger_warning_records, ?Hoff, ?app_nil_r;
      apply basicConfig_records.
Qed.

Lemma import_fixes_env_file_and_warns_witness :
  records (snd (import_module (world_with []) host_logging)) = []
  /\ import_module (world_with []) fresh_logging
     = (Ok app_module,
        mkLogging true INFO [] 0 false
          [(WARNING, lit "/srv/app/.env does not exist")]).
Proof.
  destruct (import_fixes_env_file_and_warns (world_with []) host_logging)
    as (_ & _ & H).
  split; [apply H; reflexivity|].
  reflexivity.
Defined.

(** X3. The dotenv file fixed at import counts only when a regular file is
    there at construction. If the import added its warning and the file
    system is unchanged, or if the path leads to a directory (no warning
    then), every field takes what the process environment gives its name
    and no key is forbidden. *)
Theorem dotenv_read_only_if_regular_file
        (u : UnicodeData) (w : World) (l : Logging) :
  (forall m, fst (import_module w l) = Ok m ->
             Config_env_file m = truediv (get_default_root_dir w) (lit ".env"))
  /\ (records (snd (import_module w l)) <> records l ->
      is_file w (truediv (get_default_root_dir w) (lit ".env")) = Ok false)
  /\ (stat w (truediv (get_default_root_dir w) (lit ".env")) = Found Directory ->
      fst (import_module w l)
      = Ok {| Config_env_file := truediv (get_default_root_dir w) (lit ".env") |}
      /\ records (snd (import_module w l)) = records l)
  /\ (forall m,
        is_file w (Config_env_file m) = Ok false ->
        exists d,
          settings_build_values u m w = Ok d
          /\ (forall f, In f field_names -> dict_get f d = env_value u w f)
          /\ extra_errors d = []).
Proof.
  assert (Hi : import_module w l
               = let (r, l') := get_default_env_file w (snd (basicConfig INFO l)) in
                 (match r with
                  | Ok env_file => Ok {| Config_env_file := env_file |}
                  | Raise e => Raise e
                  end, l')).
  { unfold import_module, bind, ret. now destruct (basicConfig INFO l). }
  pose proof (get_default_env_file_cases w (snd (basicConfig INFO l))) as Hc.
  split; [|split; [|split]].
  - intros m Hm. rewrite Hi in Hm.
    destruct (path_exists w (truediv (get_default_root_dir w) (lit ".env")))
      as [[|]|e]; rewrite Hc in Hm; cbn [fst] in Hm;
      try discriminate; now injection Hm as <-.
  - intros Hl. rewrite Hi in Hl. unfold path_exists, is_file in *.
    destruct (stat w (truediv (get_default_root_dir w) (lit ".env")))
      as [k|errno strerror|].
    + rewrite Hc in Hl. cbn [snd] in Hl.
      now rewrite basicConfig_records in Hl.
    + destruct (ignore_error errno); [reflexivity|].
      rewrite Hc in Hl. cbn [snd] in Hl.
      now rewrite basicConfig_records in Hl.
    + reflexivity.
  - intros Hs. rewrite Hi. unfold path_exists in Hc. rewrite Hs in Hc.
    rewrite Hc. cbn [fst snd]. split; [reflexivity | apply basicConfig_records].
  - intros m Hf. eexists. split; [apply (build_values_no_file u m w Hf)|]. split.
    + intros f Hin.
      apply (build_values_no_file_get u m w _ f Hf (build_values_no_file u m w Hf)).
      now apply mem_In.
    + apply extra_errors_nil. intros kv.
      now apply (build_values_no_file_keys u m w _ kv Hf
                   (build_values_no_file u m w Hf)).
Qed.

Lemma dotenv_read_only_if_regular_file_witness :
  let w := world_with [(lit "LOG_LEVEL", lit "debug")] in
  let w' := with_stat w (fun _ => Found Directory) in
  is_file w (truediv (get_default_root_dir w) (lit ".env")) = Ok false
  /\ (exists d,
        settings_build_values caseless app_module w = Ok d
        /\ dict_get (lit "log_level") d = Some (lit "debug"))
  /\ import_module w' fresh_logging
     = (Ok app_module, mkLogging true INFO [] 0 false []).
Proof.
  intros w w'.
  destruct (dotenv_read_only_if_regular_file caseless w fresh_logging)
    as (_ & H2 & _ & H4).
  destruct (dotenv_read_only_if_regular_file caseless w' fresh_logging)
    as (_ & _ & H3 & _).
  assert (Hw : records (snd (import_module w fresh_logging))
               <> records fresh_logging) by (vm_compute; discriminate).
  split; [exact (H2 Hw)|]. split.
  - destruct (H4 app_module (H2 Hw)) as (d & Hd & Hg & _).
    exists d. split; [exact Hd|]. rewrite Hg; [reflexivity|]. cbn. tauto.
  - destruct (H3 eq_refl) as [Hm Hr].
    destruct (import_module w' fresh_logging) as [r l'] eqn:E.
    cbn [fst snd] in Hm, Hr. subst r.
    vm_compute in E. injection E as <-. reflexivity.
Defined.

Lemma field_values_ext (d d' : dict) :
  (forall f, In f field_names -> dict_get f d = dict_get f d') ->
  field_values d = field_values d'.
Proof.
  intros H. unfold field_values. rewrite !flat_map_concat_map. f_equal.
  apply map_ext_in. intros f Hf. now rewrite (H f Hf).
Qed.

(** X4. Construction depends on the process environment through the five
    field names and through what the dotenv file expands from it, and
    through nothing else: an environment that gives these names what the
    present one gives them, and under which the file, if one is read, has
    the same bindings, leads to the same outcome. *)
Theorem unrelated_environment_ignored
        (u : UnicodeData) (m : Module) (w : World) (env' : list (str * str))
        (l : Logging) :
  (forall f, In f field_names ->
     dict_get f (parse_env_vars u env') = env_value u w f) ->
  (is_file w (Config_env_file m) = Ok true ->
   dotenv_values w (Config_env_file m) env'
   = dotenv_values w (Config_env_file m) (environ w)) ->
  Settings_new u m (with_environ w env') l = Settings_new u m w l.
Proof.
  intros H Hdot.
  assert (E : settings_build_values u m (with_environ w env')
              = settings_build_values u m w).
  { unfold settings_build_values, DotEnvSettingsSource, read_env_file.
    change (is_file (with_environ w env') (Config_env_file m))
      with (is_file w (Config_env_file m)).
    assert (Ee : EnvSettingsSource u (with_environ w env') = EnvSettingsSource u w).
    { unfold EnvSettingsSource. apply field_values_ext. exact H. }
    rewrite Ee.
    destruct (is_file w (Config_env_file m)) as [[|]|e]; try reflexivity.
    cbn [dotenv_values with_environ environ]. now rewrite (Hdot eq_refl). }
  unfold Settings_new. rewrite E. reflexivity.
Qed.

Lemma unrelated_environment_ignored_witness :
  let w := world_dotenv [(lit "APP_NAME", Some (lit "clam"))]
                        [(lit "LOG_LEVEL", lit "debug")] in
  Settings_new caseless app_module
    (with_environ w [(lit "HOME", lit "/root"); (lit "log_level", lit "debug");
                     (lit "LOGLEVEL", lit "nonsense")]) fresh_logging
  = Settings_new caseless app_module w fresh_logging.
Proof.
  intros w.
  apply (unrelated_environment_ignored caseless app_module w).
  - intros f Hf. cbn in Hf.
    repeat (destruct Hf as [<-|Hf]; [reflexivity|]). contradiction.
  - reflexivity.
Defined.





(** *** Paths and their text *)

Lemma split_sep_free (s : str) : forallb sep_free (split sep s) = true.
Proof.
  induction s as [|c r IH]; [reflexivity|].
  cbn [split]. destruct (c =? sep) eqn:E.
  - cbn [forallb]. now rewrite IH.
  - destruct (split sep r) as [|h t]; cbn [forallb sep_free] in *.
    + now rewrite E.
    + fold (sep_free h) in *. now rewrite E.
Qed.

Lemma split_single (x : str) : sep_free x = true -> split sep x = [x].
Proof.
  induction x as [|c r IH]; [reflexivity|].
  cbn [sep_free forallb]. fold (sep_free r). intros H.
  apply andb_true_iff in H as [Hc Hr]. apply negb_true_iff in Hc.
  cbn [split]. now rewrite Hc, (IH Hr).
Qed.

Lemma split_cons (x s : str) :
  sep_free x = true -> split sep (x ++ sep :: s) = x :: split sep s.
Proof.
  induction x as [|c r IH].
  - intros _. cbn [app split]. now rewrite N.eqb_refl.
  - cbn [sep_free forallb]. fold (sep_free r). intros H.
    apply andb_true_iff in H as [Hc Hr]. apply negb_true_iff in Hc.
    cbn [app split]. now rewrite Hc, (IH Hr).
Qed.

Lemma split_join (ps : list str) :
  ps <> [] -> forallb sep_free ps = true -> split sep (join [sep] ps) = ps.
Proof.
  induction ps as [|x r IH]; [congruence|].
  intros _ H. cbn [forallb] in H. apply andb_true_iff in H as [Hx Hr].
  destruct r as [|y r'].
  - now apply split_single.
  - change (join [sep] (x :: y :: r')) with (x ++ sep :: join [sep] (y :: r')).
    rewrite split_cons by assumption. f_equal. now apply IH.
Qed.

Lemma filter_all {A} (f : A -> bool) (xs : list A) :
  forallb f xs = true -> filter f xs = xs.
Proof.
  induction xs as [|x r IH]; [reflexivity|].
  cbn [forallb filter]. intros H. apply andb_true_iff in H as [Hx Hr].
  now rewrite Hx, (IH Hr).
Qed.

Lemma of_str_well_formed (s : str) : well_formed (of_str s) = true.
Proof.
  unfold well_formed, of_str.
  destruct (splitroot s) as [rt rel] eqn:E. cbn [root parts].
  apply andb_true_iff. split.
  - unfold splitroot in E.
    destruct s as [|c0 [|c1 [|c2 p3]]];
      repeat match type of E with
             | context [if ?b then _ else _] => destruct b
             end;
      injection E as <- _; reflexivity.
  - apply forallb_forall. intros x Hx. apply filter_In in Hx as [Hx Hk].
    rewrite Hk, andb_true_r.
    pose proof (split_sep_free rel) as H.
    rewrite forallb_forall in H. now apply H.
Qed.

Lemma of_str_fspath (p : Path) : well_formed p = true -> of_str (fspath p) = p.
Proof.
  destruct p as [rt ps]. unfold well_formed. cbn [root parts]. intros H.
  apply andb_true_iff in H as [Hrt Hps].
  assert (Hsf : forallb sep_free ps = true).
  { rewrite forallb_forall in *. intros x Hx.
    specialize (Hps x Hx). now apply andb_true_iff in Hps as [? _]. }
  assert (Hkp : forallb keep_part ps = true).
  { rewrite forallb_forall in *. intros x Hx.
    specialize (Hps x Hx). now apply andb_true_iff in Hps as [_ ?]. }
  assert (Hroot : rt = [] \/ rt = [sep] \/ rt = [sep; sep]).
  { apply orb_true_iff in Hrt as [Hrt|Hrt];
      [apply orb_true_iff in Hrt as [Hrt|Hrt]|]; apply eqb_eq in Hrt; tauto. }
  destruct ps as [|x r].
  - destruct Hroot as [->|[->| ->]]; reflexivity.
  - assert (Hj : split sep (join [sep] (x :: r)) = x :: r)
      by (apply split_join; [discriminate | assumption]).
    assert (Hhd : exists c t, join [sep] (x :: r) = c :: t /\ (c =? sep) = false).
    { cbn [forallb] in Hsf, Hkp.
      apply andb_true_iff in Hsf as [Hx _]. apply andb_true_iff in Hkp as [Hk _].
      destruct x as [|c x']; [discriminate|].
      cbn [sep_free forallb] in Hx. apply andb_true_iff in Hx as [Hc _].
      apply negb_true_iff in Hc.
      exists c. destruct r as [|y r'].
      - exists x'. now split.
      - exists (x' ++ sep :: join [sep] (y :: r')). now split. }
    destruct Hhd as (c & t & Ej & Hc).
    unfold fspath, of_str. cbn [root parts]. rewrite Ej in *.
    destruct Hroot as [->|[->| ->]]; cbn [app splitroot];
      rewrite ?N.eqb_refl, ?Hc, Hj; now rewrite filter_all.
Qed.

(** X6. The text of a path leads back to the path: parsing [str(p)] gives
    [p] again for every path made from a string. The message of the
    [root_dir] validator therefore names the rejected path in a form that
    parses to it. *)
Theorem root_dir_message_names_the_path (w : World) (s : str) :
  of_str (fspath (of_str s)) = of_str s
  /\ (path_exists w (of_str s) = Ok false ->
      exists text,
        validate_path_exists w (of_str s)
        = Raise (ValueError [text ++ lit " does not exist"])
        /\ of_str text = of_str s).
Proof.
  assert (E : of_str (fspath (of_str s)) = of_str s)
    by apply of_str_fspath, of_str_well_formed.
  split; [exact E|].
  intros H. exists (fspath (of_str s)). split; [|exact E].
  unfold validate_path_exists. now rewrite H.
Qed.

Lemma root_dir_message_names_the_path_witness :
  let w := world_only [] [] in
  exists text,
    validate_path_exists w (of_str (lit "//tmp/./x//y/"))
    = Raise (ValueError [text ++ lit " does not exist"])
    /\ of_str text = of_str (lit "//tmp/./x//y/").
Proof.
  intros w.
  destruct (root_dir_message_names_the_path w (lit "//tmp/./x//y/")) as [_ H].
  apply H. reflexivity.
Defined.

(** *** Fields without a validator, and several errors at once *)

Lemma dict_set_field_extra (k v : str) (d : dict) :
  mem k field_names = true ->
  filter (fun kv => negb (mem (fst kv) field_names)) (dict_set k v d)
  = filter (fun kv => negb (mem (fst kv) field_names)) d.
Proof.
  intros Hk. induction d as [|[k' v'] r IH]; cbn [dict_set filter fst].
  - now rewrite Hk.
  - destruct (eqb k k') eqn:E; cbn [filter fst].
    + apply eqb_eq in E. subst k'. now rewrite Hk.
    + now rewrite IH.
Qed.

Lemma dict_update_field_extra (d2 d1 : dict) :
  (forall kv, In kv d2 -> mem (fst kv) field_names = true) ->
  extra_errors (dict_update d1 d2) = extra_errors d1.
Proof.
  unfold extra_errors, dict_update. revert d1.
  induction d2 as [|[k v] r IH]; intros d1 H; [reflexivity|].
  cbn [fold_left fst snd]. rewrite IH by (intros kv Hkv; apply H; now right).
  now rewrite dict_set_field_extra by (apply (H (k, v)); now left).
Qed.

Lemma model_validate_congr (u : UnicodeData) (w : World) (d d' : dict) :
  input_app_name d' = input_app_name d ->
  input_root_dir w d' = input_root_dir w d ->
  input_app_logo_image w d' = input_app_logo_image w d ->
  input_log_level d' = input_log_level d ->
  extra_errors d' = extra_errors d ->
  match model_validate u w d, model_validate u w d' with
  | Built s, Built s' =>
      s' = mkSettings (app_name s) (input_app_tagline d')
                      (root_dir s) (app_logo_image s) (log_level s)
  | ValidationError errs, ValidationError errs' => errs' = errs
  | Propagated e, Propagated e' => e' = e
  | _, _ => False
  end.
Proof.
  intros Ga Gr Gi Gg Ge. unfold model_validate. rewrite Ga, Gr, Gi, Gg, Ge.
  destruct (validate_str_not_empty (input_app_name d)) as [?|[?|? ? ?]];
    destruct (validate_path_exists w (input_root_dir w d)) as [?|[?|? ? ?]];
    destruct (validate_log_level u (input_log_level d)) as [?|[?|? ? ?]];
    destruct (extra_errors d); reflexivity.
Qed.

(** X7. [app_tagline] has no validator: whatever the process environment
    gives it, the empty string included, construction ends as before, with
    the same errors, the same exception or the same four other fields, and
    a built instance stores the tagline as collected; provided the dotenv
    file, if one is read, has the same bindings under both environments. *)
Theorem tagline_never_rejected
        (u : UnicodeData) (m : Module) (w : World) (env' : list (str * str))
        (l : Logging) :
  (forall f, In f field_names -> f <> lit "app_tagline" ->
     dict_get f (parse_env_vars u env') = env_value u w f) ->
  (is_file w (Config_env_file m) = Ok true ->
   dotenv_values w (Config_env_file m) env'
   = dotenv_values w (Config_env_file m) (environ w)) ->
  match fst (Settings_new u m w l),
        fst (Settings_new u m (with_environ w env') l) with
  | Built s, Built s' =>
      exists d',
        settings_build_values u m (with_environ w env') = Ok d'
        /\ s' = mkSettings (app_name s) (input_app_tagline d')
                           (root_dir s) (app_logo_image s) (log_level s)
  | ValidationError errs, ValidationError errs' => errs' = errs
  | Propagated e, Propagated e' => e' = e
  | _, _ => False
  end.
Proof.
  intros H Hdot.
  assert (Er : read_env_file u (with_environ w env') (Config_env_file m)
               = read_env_file u w (Config_env_file m)).
  { unfold read_env_file.
    change (is_file (with_environ w env') (Config_env_file m))
      with (is_file w (Config_env_file m)).
    destruct (is_file w (Config_env_file m)) as [[|]|e]; try reflexivity.
    cbn [dotenv_values with_environ environ]. now rewrite (Hdot eq_refl). }
  unfold Settings_new, ret. cbn [fst].
  destruct (read_env_file u w (Config_env_file m)) as [ev|e] eqn:Hev.
  - pose proof (build_values_of_file u m w ev Hev) as Hd.
    pose proof (build_values_of_file u m (with_environ w env') ev Er) as Hd'.
    rewrite Hd, Hd'.
    set (d := dict_update _ (EnvSettingsSource u w)) in *.
    set (d' := dict_update _ (EnvSettingsSource u (with_environ w env'))) in *.
    assert (G : forall f, In f field_names -> f <> lit "app_tagline" ->
                          dict_get f d' = dict_get f d).
    { intros f Hf Hn.
      rewrite (build_values_get u m (with_environ w env') d' f Hd')
        by now apply mem_In.
      rewrite (build_values_get u m w d f Hd) by now apply mem_In.
      unfold env_value at 1. cbn [environ with_environ].
      rewrite (H f Hf Hn). unfold file_value. now rewrite Er, Hev. }
    assert (Ga : input_app_name d' = input_app_name d).
    { unfold input_app_name. rewrite G; [reflexivity| |discriminate]. cbn. tauto. }
    assert (Gr : input_root_dir w d' = input_root_dir w d).
    { unfold input_root_dir. rewrite G; [reflexivity| |discriminate]. cbn. tauto. }
    assert (Gi : input_app_logo_image w d' = input_app_logo_image w d).
    { unfold input_app_logo_image. rewrite G; [reflexivity| |discriminate].
      cbn. tauto. }
    assert (Gg : input_log_level d' = input_log_level d).
    { unfold input_log_level. rewrite G; [reflexivity| |discriminate]. cbn. tauto. }
    assert (Ge : extra_errors d' = extra_errors d).
    { unfold d, d'.
      rewrite !dict_update_field_extra
        by (intros kv Hkv; now apply field_values_keys in Hkv).
      reflexivity. }
    change (model_validate u (with_environ w env') d')
      with (model_validate u w d').
    pose proof (model_validate_congr u w d d' Ga Gr Gi Gg Ge) as C.
    destruct (model_validate u w d); destruct (model_validate u w d');
      try exact C.
    exists d'. split; [reflexivity | exact C].
  - assert (Hd : settings_build_values u m w = Raise e).
    { unfold settings_build_values, DotEnvSettingsSource. now rewrite Hev. }
    assert (Hd' : settings_build_values u m (with_environ w env') = Raise e).
    { unfold settings_build_values, DotEnvSettingsSource. now rewrite Er. }
    now rewrite Hd, Hd'.
Qed.

Lemma tagline_never_rejected_witness :
  let w := world_with [(lit "LOG_LEVEL", lit "debug")] in
  let env' := [(lit "APP_TAGLINE", []); (lit "LOG_LEVEL", lit "debug")] in
  match fst (Settings_new caseless app_module w fresh_logging),
        fst (Settings_new caseless app_module (with_environ w env') fresh_logging)
  with
  | Built s, Built s' =>
      exists d',
        settings_build_values caseless app_module (with_environ w env') = Ok d'
        /\ s' = mkSettings (app_name s) (input_app_tagline d')
                           (root_dir s) (app_logo_image s) (log_level s)
  | ValidationError errs, ValidationError errs' => errs' = errs
  | Propagated e, Propagated e' => e' = e
  | _, _ => False
  end.
Proof.
  intros w env'.
  apply (tagline_never_rejected caseless app_module w env' fresh_logging).
  - intros f Hf Hn. cbn in Hf.
    destruct Hf as [<-|[<-|[<-|[<-|[<-|[]]]]]]; try reflexivity.
    now elim Hn.
  - intros H. vm_compute in H. discriminate H.
Defined.

(** An empty tagline is stored, where an empty name is refused. *)
Example empty_tagline_accepted :
  fst (Settings_new caseless app_module
         (world_with [(lit "APP_TAGLINE", [])]) fresh_logging)
  = Built {| app_name := lit "mirugai";
             app_tagline := [];
             root_dir := of_str (lit "/srv/app");
             app_logo_image := of_str (lit "/srv/app/logo.jpg");
             log_level := lit "INFO" |}.
Proof. reflexivity. Qed.

(** X10. Validation does not stop at the first [ValueError]: when both
    [app_name] and [log_level] are rejected and the existence check of
    [root_dir] gives an answer, one failure reports both, [app_name] first,
    with at most the error of [root_dir] between them and only forbidden
    keys after them. *)
Theorem failures_reported_together
        (u : UnicodeData) (m : Module) (w : World) (l : Logging) (d : dict)
        (e1 e2 : Exception) (b : bool) :
  settings_build_values u m w = Ok d ->
  validate_str_not_empty (input_app_name d) = Raise e1 ->
  validate_log_level u (input_log_level d) = Raise e2 ->
  path_exists w (input_root_dir w d) = Ok b ->
  exists mid rest,
    Settings_new u m w l
    = (ValidationError
         (mkError (lit "app_name") (value_error e1)
          :: mid ++ mkError (lit "log_level") (value_error e2) :: rest), l)
    /\ (List.length mid <= 1)%nat
    /\ (forall e, In e mid -> loc e = lit "root_dir")
    /\ (forall e, In e rest -> err e = extra_forbidden).
Proof.
  intros Hd H1 H2 Hb.
  exists (field_errors (lit "root_dir")
            (validate_path_exists w (input_root_dir w d))),
         (extra_errors d).
  assert (Hr : validate_path_exists w (input_root_dir w d)
               = if b then Ok (input_root_dir w d)
                 else Raise (ValueError [fspath (input_root_dir w d)
                                         ++ lit " does not exist"])).
  { unfold validate_path_exists. rewrite Hb. now destruct b. }
  split; [|split; [|split]].
  - unfold Settings_new, ret, model_validate. rewrite Hd, H1, H2, Hr.
    destruct (validate_str_not_empty_cases (input_app_name d)) as [E|E];
      rewrite E in H1; [discriminate|]. injection H1 as <-.
    destruct (validate_log_level_cases u (input_log_level d)) as [E'|E'];
      rewrite E' in H2; [discriminate|]. injection H2 as <-.
    destruct b; destruct (extra_errors d); reflexivity.
  - rewrite Hr. destruct b; cbn; lia.
  - intros e He. rewrite Hr in He. destruct b; [contradiction|].
    destruct He as [<-|[]]. reflexivity.
  - intros e He. now apply extra_errors_loc in He.
Qed.

Lemma failures_reported_together_witness :
  let w := world_with [(lit "APP_NAME", lit " "); (lit "LOG_LEVEL", lit "verbose")] in
  exists mid rest,
    Settings_new caseless app_module w fresh_logging
    = (ValidationError
         (mkError (lit "app_name")
            (value_error (ValueError [lit "app_name must not be empty"]))
          :: mid
          ++ mkError (lit "log_level")
               (value_error
                  (ValueError
                     [lit "log_level must be one of DEBUG, INFO, WARNING, ERROR";
                      lit "CRITICAL"]))
          :: rest), fresh_logging)
    /\ (List.length mid <= 1)%nat
    /\ (forall e, In e mid -> loc e = lit "root_dir")
    /\ (forall e, In e rest -> err e = extra_forbidden).
Proof.
  intros w.
  apply (failures_reported_together caseless app_module w fresh_logging
           [(lit "app_name", lit " "); (lit "log_level", lit "verbose")]
           _ _ true); reflexivity.
Defined.

(** X8. The class documentation gives [WARN] as an example of a level, but
    the validator knows [WARNING] only: [WARN], in any letter case, is
    rejected. *)
Theorem warn_is_not_a_level (u : UnicodeData) (v : str) :
  upper u v = lit "WARN" ->
  validate_log_level u v
  = Raise (ValueError [lit "log_level must be one of DEBUG, INFO, WARNING, ERROR";
                       lit "CRITICAL"]).
Proof.
  intros H. unfold validate_log_level. now rewrite H.
Qed.

Lemma warn_is_not_a_level_witness :
  validate_log_level caseless (lit "Warn")
  = Raise (ValueError [lit "log_level must be one of DEBUG, INFO, WARNING, ERROR";
                       lit "CRITICAL"]).
Proof.
  apply (warn_is_not_a_level caseless (lit "Warn")). reflexivity.
Defined.
